(** * Rule applicability and cached operation pipeline

    A shallow embedding of [cdisc_rules_engine/utilities/rule_processor.py]
    (class [RuleProcessor]) together with the statements of its
    specification that concern the domain gate, the class gate, the
    operation executor and the condition-tree rewriter. *)

From Stdlib Require Import ZArith Ascii String List Bool Lia.
From stdpp Require Import base option list strings pretty sorting gmap.

Open Scope string_scope.
Open Scope list_scope.

(** ** Python values and exceptions *)

(** The exceptions the embedded code can raise. *)
Inductive Exn :=
| KeyError (key : string)
| TypeError (msg : string)
| ValueError (msg : string)
| AttributeError (msg : string)
| IndexError (msg : string)
| ReError (pattern : string).

(** Outcome of a call: a value or a raised exception. *)
Inductive Res (A : Type) :=
| Ok (a : A)
| Raise (e : Exn).
Arguments Ok {A} a.
Arguments Raise {A} e.

(** [x in l] for a list of strings. *)
Definition py_in (x : string) (l : list string) : bool :=
  existsb (String.eqb x) l.

(** Truth value of a list: non-empty. *)
Definition truthy_list {A} (l : list A) : bool :=
  match l with [] => false | _ :: _ => true end.

(** Truth value of a string: non-empty. *)
Definition truthy_str (s : string) : bool :=
  match s with EmptyString => false | String _ _ => true end.

(** [s.startswith(p)]. *)
Definition startswith (s p : string) : bool := String.prefix p s.

(** [sep.join(l)]. *)
Fixpoint join (sep : string) (l : list string) : string :=
  match l with
  | [] => ""
  | [x] => x
  | x :: rest => x +:+ sep +:+ join sep rest
  end.

(** [s.replace(old, new, count)] for a non-empty [old]: non-overlapping
    occurrences are replaced from the left, at most [count] of them when a
    count is given.  [skip] counts the characters of a matched occurrence
    that remain to be dropped. *)
Fixpoint replace_from (old new : string) (count : option nat) (skip : nat)
    (s : string) : string :=
  match s with
  | EmptyString => EmptyString
  | String c s' =>
      match skip with
      | S k => replace_from old new count k s'
      | O =>
          match count with
          | Some O => s
          | _ =>
              if String.prefix old s
              then new +:+ replace_from old new (Nat.pred <$> count)
                            (String.length old - 1) s'
              else String c (replace_from old new count 0 s')
          end
      end
  end.

Definition str_replace (s old new : string) (count : option nat) : string :=
  replace_from old new count 0 s.

(** ** The rule record *)

(** [rule["domains"]]: every key is optional, as the code reads them with
    [dict.get]. *)
Record Domains := {
  Include : option (list string);
  Exclude : option (list string);
  include_split_datasets : option bool
}.

(** [rule["classes"]]. *)
Record Classes := {
  cls_Include : option (list string);
  cls_Exclude : option (list string)
}.

(** A Python list object is addressed by its position in the store, so
    that two names for one list see each other's updates. *)
Definition loc := nat.

(** An operation declaration of a rule; [op_group] refers to the list
    object stored in the rule. *)
Record Operation := {
  op_id : string;
  op_operator : string;
  op_name : option string;
  op_domain : option string;
  op_group : option loc
}.

(** The keys of a composite condition. *)
Inductive AllowedConditionsKeys :=
| ALL
| ANY.

(** [condition["value"]]. *)
Record Value := {
  v_target : option string;
  v_comparator : option string;
  v_unit : option string
}.

(** A condition dictionary: the keys of a leaf ([name], [operator],
    [value]) and the branches of a composite, in the order of its keys;
    a dictionary without branches is a leaf. *)
#[warnings="-register-all"]
Inductive Condition :=
| mkCondition (c_name c_operator : option string) (c_value : option Value)
    (c_nested : list (AllowedConditionsKeys * list Condition)).

Definition c_name (c : Condition) : option string :=
  match c with mkCondition n _ _ _ => n end.
Definition c_operator (c : Condition) : option string :=
  match c with mkCondition _ o _ _ => o end.
Definition c_value (c : Condition) : option Value :=
  match c with mkCondition _ _ v _ => v end.
Definition c_nested (c : Condition)
    : list (AllowedConditionsKeys * list Condition) :=
  match c with mkCondition _ _ _ b => b end.

(** Induction on condition dictionaries: the children of every branch
    satisfy the property. *)
Fixpoint Condition_nested_ind (P : Condition -> Prop)
    (step : forall n o v branches,
        Forall (fun b => Forall P (snd b)) branches ->
        P (mkCondition n o v branches))
    (c : Condition) : P c :=
  match c with
  | mkCondition n o v branches =>
      step n o v branches
        ((fix over_branches (bs : list (AllowedConditionsKeys * list Condition))
            : Forall (fun b => Forall P (snd b)) bs :=
            match bs with
            | [] => List.Forall_nil _
            | (k, children) :: bs' =>
                @List.Forall_cons _ (fun b => Forall P (snd b)) (k, children) bs'
                  ((fix over_children (cs : list Condition) : Forall P cs :=
                      match cs with
                      | [] => List.Forall_nil _
                      | c' :: cs' =>
                          @List.Forall_cons _ P c' cs'
                            (Condition_nested_ind P step c')
                            (over_children cs')
                      end) children)
                  (over_branches bs')
            end) branches)
  end.

(** Modelled from the spec: [ConditionInterface] and
    [ConditionCompositeFactory] of [models/rule_conditions] live outside
    the module embedded here.  The tree is the composite of its branches, each
    an ordered sequence of children under a key; [items] gives the
    branches with their children as dictionaries, [values] the leaves in
    traversal order, and the factory builds the tree of the branches it is
    given. *)
Definition ConditionInterface : Type :=
  list (AllowedConditionsKeys * list Condition).

Fixpoint leaves (c : Condition) : list Condition :=
  match c with
  | mkCondition _ _ _ [] => [c]
  | mkCondition _ _ _ branches =>
      flat_map (fun b => flat_map leaves (snd b)) branches
  end.

Definition values (t : ConditionInterface) : list Condition :=
  flat_map (fun b => flat_map leaves (snd b)) t.

Definition items (t : ConditionInterface)
    : list (AllowedConditionsKeys * list Condition) := t.

Definition get_condition_composite
    (conditions : list (AllowedConditionsKeys * list Condition))
    : ConditionInterface := conditions.

(** The rule dictionary, with the keys the processor reads. *)
Record Rule := {
  core_id : option string;
  standards : option (list string);
  domains : option Domains;
  classes : option Classes;
  conditions : ConditionInterface;
  operations : option (list Operation);
  output_variables : option (list string)
}.

(** ** Domain gate *)

(** Constants of [constants/domains.py] and helpers of [utilities/utils.py]
    the domain gate imports; they are parameters of the gate. *)
Record DomainNaming := {
  SUPPLEMENTARY_DOMAINS : list string;
  AP_DOMAIN : string;
  APFA_DOMAIN : string;
  is_supp_domain : string -> bool;
  is_ap_domain : string -> bool
}.

Section DomainGate.
Variable N : DomainNaming.

Definition _domain_in_supp_domains (domains : list string) : bool :=
  let supp_domains := map (fun domain => domain +:+ "--") (SUPPLEMENTARY_DOMAINS N) in
  existsb (fun domain => py_in domain supp_domains) domains.

(** [any(is_ap_domain(d) and x in ["AP--", "APFA--"] for x in xs)]. *)
Definition matches_ap_naming_pattern (dataset_domain : string)
    (xs : list string) : bool :=
  existsb
    (fun x =>
       is_ap_domain N dataset_domain
       && py_in x [AP_DOMAIN N +:+ "--"; APFA_DOMAIN N +:+ "--"])
    xs.

Definition rule_applies_to_domain (dataset_domain : string)
    (rule : Rule) (is_split_domain : bool) : bool :=
  let domains :=
    default {| Include := None; Exclude := None;
               include_split_datasets := None |} (domains rule) in
  let included_domains := default [] (Include domains) in
  let excluded_domains := default [] (Exclude domains) in
  let split_flag := include_split_datasets domains in
  let is_included := true in
  let is_excluded := false in
  let is_included :=
    if truthy_list included_domains then
      if negb (py_in dataset_domain included_domains)
         && negb (py_in "All" included_domains)
      then
        let matches_supp_naming_pattern :=
          is_supp_domain N dataset_domain
          && _domain_in_supp_domains included_domains in
        if negb (matches_supp_naming_pattern
                 || matches_ap_naming_pattern dataset_domain included_domains)
        then false else is_included
      else is_included
    else
      if bool_decide (split_flag = Some true) && negb is_split_domain
      then false else is_included in
  let is_excluded :=
    if truthy_list excluded_domains then
      let is_excluded :=
        if py_in dataset_domain excluded_domains
           || py_in "All" excluded_domains
        then true else is_excluded in
      let matches_supp_naming_pattern :=
        is_supp_domain N dataset_domain
        && _domain_in_supp_domains excluded_domains in
      if matches_supp_naming_pattern
         || matches_ap_naming_pattern dataset_domain excluded_domains
      then true else is_excluded
    else is_excluded in
  let is_included :=
    if bool_decide (split_flag = Some true) && is_split_domain
       && negb is_excluded
    then true else is_included in
  let is_excluded :=
    if bool_decide (split_flag = Some false) && is_split_domain
    then true else is_excluded in
  is_included && negb is_excluded.
End DomainGate.

(** Modelled from the spec: the constants of [constants/domains.py] and the
    helpers [is_supp_domain], [is_ap_domain] of [utilities/utils.py] live
    outside the module embedded here.  The specification gives the
    supplementary family as the [SUPP]-prefixed domains with generic entry
    [SUPP--], and the associated-persons family as the domains prefixed
    [AP] or [APFA] or the literal [APRELSUB], with generic entries [AP--]
    and [APFA--]. *)
Definition spec_naming : DomainNaming := {|
  SUPPLEMENTARY_DOMAINS := ["SUPP"];
  AP_DOMAIN := "AP";
  APFA_DOMAIN := "APFA";
  is_supp_domain := fun d => startswith d "SUPP";
  is_ap_domain := fun d =>
    startswith d "AP" || startswith d "APFA" || String.eqb d "APRELSUB"
|}.

(** ** Tabular data

    A pandas [DataFrame]: [nrows] rows, an index that labels them, and
    labelled columns, every column holding [nrows] cells. *)
Inductive Cell :=
| CNone
| NaN
| CInt (z : Z)
| CStr (s : string).

(** The row labels: the default [RangeIndex] (the labels [0 .. nrows - 1]),
    an index of other integers (what is left of a range after rows were
    dropped, or a concatenation that kept the labels of its parts), or an
    index of strings. *)
Inductive Index :=
| RangeIndex
| IntIndex (labels : list Z)
| ObjIndex (labels : list string).

Inductive Label :=
| LInt (z : Z)
| LStr (s : string).

Record DataFrame := {
  nrows : nat;
  index : Index;
  columns : list (string * list Cell)
}.

Definition range_labels (n : nat) : list Z := map Z.of_nat (seq 0 n).

(** The integer labels of the rows; [None] for an index of strings. *)
Definition int_labels (df : DataFrame) : option (list Z) :=
  match index df with
  | RangeIndex => Some (range_labels (nrows df))
  | IntIndex ls => Some ls
  | ObjIndex _ => None
  end.

Definition labels_of (df : DataFrame) : list Label :=
  match index df with
  | RangeIndex => map LInt (range_labels (nrows df))
  | IntIndex ls => map LInt ls
  | ObjIndex ls => map LStr ls
  end.

Definition Label_eqb (a b : Label) : bool :=
  match a, b with
  | LInt x, LInt y => Z.eqb x y
  | LStr x, LStr y => String.eqb x y
  | _, _ => false
  end.

(** What an operation returns: a scalar, a single column or a frame
    (grouped results are frames keyed by the grouping columns). *)
Inductive Result :=
| RScalar (c : Cell)
| RSeries (cells : list Cell)
| RFrame (df : DataFrame).

(** The value of [target_columns]: [None] or a list of labels. *)
Inductive PyObj :=
| PyNone
| PyStrList (labels : list string).

Definition Cell_eqb (a b : Cell) : bool :=
  match a, b with
  | CNone, CNone => true
  | NaN, NaN => true
  | CInt x, CInt y => Z.eqb x y
  | CStr x, CStr y => String.eqb x y
  | _, _ => false
  end.

(** [bool(result)]: pandas objects refuse to be tested for truth. *)
Definition truthy_result (r : Result) : Res bool :=
  match r with
  | RScalar CNone => Ok false
  | RScalar NaN => Ok true
  | RScalar (CInt z) => Ok (negb (Z.eqb z 0))
  | RScalar (CStr s) => Ok (truthy_str s)
  | RSeries _ => Raise (ValueError "The truth value of a Series is ambiguous")
  | RFrame _ => Raise (ValueError "The truth value of a DataFrame is ambiguous")
  end.

(** [label in df]. *)
Definition df_contains (df : DataFrame) (label : string) : bool :=
  py_in label (map fst (columns df)).

(** [df[label]] for one label. *)
Fixpoint assoc_get {A} (label : string) (cols : list (string * A)) : option A :=
  match cols with
  | [] => None
  | (l, c) :: rest => if String.eqb l label then Some c else assoc_get label rest
  end.

Definition df_column (df : DataFrame) (label : string) : Res (list Cell) :=
  match assoc_get label (columns df) with
  | Some c => Ok c
  | None => Raise (KeyError label)
  end.

(** The positions of the rows a label stands at. *)
Definition positions_of {A} (eqb : A -> A -> bool) (l : A) (ls : list A)
    : list nat :=
  List.filter (fun i => match ls !! i with
                        | Some l' => eqb l' l
                        | None => false
                        end)
              (seq 0 (length ls)).

(** What indexing a column by one key gives: an element, or the elements of
    all the rows that carry the label when there are several. *)
Inductive Element :=
| EOne (c : Cell)
| ESeveral (cells : list Cell).

(** [series[key]] for an integer key.  An integer index is searched for
    the label [key]: no such row is a [KeyError], one row gives its
    element, several rows give a column.  With an index of strings the key
    is a position (pandas before 3.0), counted from the end when negative. *)
Definition series_getitem (df : DataFrame) (cells : list Cell) (key : Z)
    : Res Element :=
  match int_labels df with
  | Some ls =>
      match positions_of Z.eqb key ls with
      | [] => Raise (KeyError (pretty key))
      | [i] => Ok (EOne (nth i cells NaN))
      | several => Ok (ESeveral (map (fun i => nth i cells NaN) several))
      end
  | None =>
      let n := Z.of_nat (length cells) in
      let pos := if (key <? 0)%Z then (n + key)%Z else key in
      if ((0 <=? pos)%Z && (pos <? n)%Z)%bool
      then Ok (EOne (nth (Z.to_nat pos) cells NaN))
      else Raise (IndexError "index out of bounds")
  end.

(** What [element == target] gives: a truth value, or a column of them. *)
Inductive Compared :=
| CmpBool (b : bool)
| CmpSeries (bs : list bool).

(** [bool(compared)]: a column refuses to be tested for truth. *)
Definition truthy_compared (c : Compared) : Res bool :=
  match c with
  | CmpBool b => Ok b
  | CmpSeries _ => Raise (ValueError "The truth value of a Series is ambiguous")
  end.

(** [df.rename(columns={old: new})]; an absent [old] renames nothing. *)
Definition df_rename (df : DataFrame) (old : option string) (new : string)
    : DataFrame :=
  match old with
  | None => df
  | Some o =>
      {| nrows := nrows df;
         index := index df;
         columns := map (fun lc => if String.eqb (fst lc) o
                                   then (new, snd lc) else lc) (columns df) |}
  end.

(** [result.rename(columns=...)] on whatever the operation returned. *)
Definition result_rename (r : Result) (old : option string) (new : string)
    : Res DataFrame :=
  match r with
  | RFrame df => Ok (df_rename df old new)
  | RSeries _ =>
      Raise (TypeError "rename() got an unexpected keyword argument 'columns'")
  | RScalar _ => Raise (AttributeError "rename")
  end.

(** [df[labels]] for a list of labels. *)
Fixpoint df_select (df : DataFrame) (labels : list string)
    : Res (list (string * list Cell)) :=
  match labels with
  | [] => Ok []
  | l :: rest =>
      match assoc_get l (columns df), df_select df rest with
      | Some c, Ok cs => Ok ((l, c) :: cs)
      | None, _ => Raise (KeyError l)
      | _, Raise e => Raise e
      end
  end.

(** [df[key]]: no column is labelled [None]. *)
Definition df_getitem (df : DataFrame) (key : PyObj) : Res DataFrame :=
  match key with
  | PyNone => Raise (KeyError "None")
  | PyStrList labels =>
      match df_select df labels with
      | Ok cs => Ok {| nrows := nrows df; index := index df; columns := cs |}
      | Raise e => Raise e
      end
  end.

(** Row [i] of a list of columns; a short column reads as [NaN]. *)
Definition row_at (cols : list (list Cell)) (i : nat) : list Cell :=
  map (fun c => nth i c NaN) cols.

Definition df_rows (df : DataFrame) : list (list Cell) :=
  map (row_at (map snd (columns df))) (seq 0 (nrows df)).

Definition cells_eqb (a b : list Cell) : bool :=
  Nat.eqb (length a) (length b)
  && forallb (fun p => Cell_eqb (fst p) (snd p)) (combine a b).

(** Columns from rows: column [j] collects cell [j] of every row. *)
Definition cols_of_rows (labels : list string) (rows : list (list Cell))
    : list (string * list Cell) :=
  map (fun jl => (snd jl, map (fun r => nth (fst jl) r NaN) rows))
      (combine (seq 0 (length labels)) labels).

(** [left.merge(right, on=on, how="left")]: every left row is kept, once
    per right row with the same key and once with [NaN] when there is
    none; columns the two frames share outside the key get the suffixes
    [_x] and [_y]; the rows of the result are labelled afresh. *)
Definition df_merge_left (left right : DataFrame) (on : list string)
    : Res DataFrame :=
  match df_select left on, df_select right on with
  | Raise e, _ => Raise e
  | _, Raise e => Raise e
  | Ok lkeys, Ok rkeys =>
      let rrest := List.filter (fun lc => negb (py_in (fst lc) on)) (columns right) in
      let lrest := List.filter (fun lc => negb (py_in (fst lc) on)) (columns left) in
      let shared l := py_in l (map fst lrest) && py_in l (map fst rrest) in
      let llabels :=
        map (fun lc => if negb (py_in (fst lc) on) && shared (fst lc)
                       then fst lc +:+ "_x" else fst lc) (columns left) in
      let rlabels :=
        map (fun lc => if shared (fst lc) then fst lc +:+ "_y" else fst lc)
            rrest in
      let rindex := seq 0 (nrows right) in
      let rows :=
        flat_map
          (fun i =>
             let lrow := row_at (map snd (columns left)) i in
             let key := row_at (map snd lkeys) i in
             let hits :=
               List.filter (fun j => cells_eqb key (row_at (map snd rkeys) j))
                      rindex in
             match hits with
             | [] => [lrow ++ map (fun _ => NaN) rrest]
             | _ => map (fun j => lrow ++ row_at (map snd rrest) j) hits
             end)
          (seq 0 (nrows left)) in
      Ok {| nrows := length rows;
            index := RangeIndex;
            columns := cols_of_rows (llabels ++ rlabels) rows |}
  end.

(** Put column [label]: in place when the label exists, last otherwise. *)
Fixpoint assoc_set {A} (label : string) (c : A) (cols : list (string * A))
    : list (string * A) :=
  match cols with
  | [] => [(label, c)]
  | (l, c') :: rest =>
      if String.eqb l label then (l, c) :: rest
      else (l, c') :: assoc_set label c rest
  end.

(** A column of a value labelled [src], aligned on the labels [dst]: each
    row takes the element of the value that carries its label, [NaN] when
    there is none. *)
Definition align (src : list Label) (cells : list Cell) (dst : list Label)
    : list Cell :=
  map (fun l => match positions_of Label_eqb l src with
                | i :: _ => nth i cells NaN
                | [] => NaN
                end) dst.

Definition labels_eqb (a b : list Label) : bool :=
  Nat.eqb (length a) (length b)
  && forallb (fun p => Label_eqb (fst p) (snd p)) (combine a b).

Fixpoint has_duplicates (ls : list Label) : bool :=
  match ls with
  | [] => false
  | l :: rest => existsb (Label_eqb l) rest || has_duplicates rest
  end.

(** [df[label] = value] for a column value with the index [value_index]
    of [length cells] rows: an empty frame takes the index of a non-empty
    value, its own columns reading [NaN]; a value with the labels of the
    frame is taken as it is; any other value is aligned on the labels of
    the frame, which its own labels must allow by being distinct. *)
Definition df_set_cells (df : DataFrame) (label : string)
    (value_index : Index) (cells : list Cell) : Res DataFrame :=
  let value :=
    {| nrows := length cells; index := value_index; columns := [] |} in
  if Nat.eqb (nrows df) 0 && negb (Nat.eqb (length cells) 0) then
    Ok {| nrows := length cells;
          index := value_index;
          columns := assoc_set label cells
                       (map (fun lc => (fst lc, repeat NaN (length cells)))
                            (columns df)) |}
  else if labels_eqb (labels_of value) (labels_of df) then
    Ok {| nrows := nrows df; index := index df;
          columns := assoc_set label cells (columns df) |}
  else if has_duplicates (labels_of value) then
    Raise (ValueError "cannot reindex on an axis with duplicate labels")
  else
    Ok {| nrows := nrows df; index := index df;
          columns := assoc_set label
                       (align (labels_of value) cells (labels_of df))
                       (columns df) |}.

(** [df[label] = result]: a scalar is broadcast, a column (which carries
    the default index) or the one column of a frame is aligned on the
    labels of the rows. *)
Definition df_setitem (df : DataFrame) (label : string) (r : Result)
    : Res DataFrame :=
  match r with
  | RScalar c =>
      Ok {| nrows := nrows df;
            index := index df;
            columns := assoc_set label (repeat c (nrows df)) (columns df) |}
  | RSeries cells => df_set_cells df label RangeIndex cells
  | RFrame d =>
      match columns d with
      | [(_, cells)] => df_set_cells df label (index d) cells
      | _ => Raise (ValueError "Cannot set a DataFrame with multiple columns to a single column")
      end
  end.

(** ** Shared state and external collaborators *)

(** A dataset descriptor of the [datasets] list. *)
Record Descriptor := {
  dd_domain : option string;
  dd_filename : option string
}.

(** Calls made to the external collaborators, oldest first. *)
Inductive Event :=
| EvGetDataset (dataset_name : string)
| EvGetDatasetClass (file_path : string)
| EvOperation (operation_name : string).

Record World := {
  cache : gmap string Result;
  heap : list (list string);
  trace : list Event
}.

(** Computations that read and update the world and may raise; the world
    reached when an exception is raised is kept. *)
Definition M (A : Type) : Type := World -> World * Res A.

Definition ret {A} (a : A) : M A := fun w => (w, Ok a).

Definition raise {A} (e : Exn) : M A := fun w => (w, Raise e).

Definition bind {A B} (m : M A) (k : A -> M B) : M B :=
  fun w =>
    match m w with
    | (w', Ok a) => k a w'
    | (w', Raise e) => (w', Raise e)
    end.

Definition lift {A} (r : Res A) : M A := fun w => (w, r).

Declare Scope py_scope.
Delimit Scope py_scope with py.
Notation "x <- m ;; k" := (bind m (fun x => k))
  (at level 100, m at next level, right associativity) : py_scope.
Notation "m ;;; k" := (bind m (fun _ => k))
  (at level 100, right associativity) : py_scope.
Open Scope py_scope.

Definition emit (ev : Event) : M unit :=
  fun w => ({| cache := cache w; heap := heap w; trace := trace w ++ [ev] |},
            Ok tt).

(** Modelled from the spec: the cache service is given by its interface
    only ([get(key) -> value|absent], [add(key, value)]); an absent key
    reads as [None], and entries are write-once per signature: the first
    writer wins, a later [add] under the same key changes nothing. *)
Definition cache_get (key : string) : M Result :=
  fun w => (w, Ok (default (RScalar CNone) (cache w !! key))).

Definition cache_add (key : string) (r : Result) : M unit :=
  fun w =>
    match cache w !! key with
    | Some _ => (w, Ok tt)
    | None =>
        ({| cache := <[key := r]> (cache w); heap := heap w;
            trace := trace w |}, Ok tt)
    end.

(** Reading a list object, allocating one, and [list.append], which
    updates the object in place and returns [None]. *)
Definition list_read (l : loc) : M (list string) :=
  fun w => (w, Ok (default [] (heap w !! l))).

Definition list_new (xs : list string) : M loc :=
  fun w => ({| cache := cache w; heap := heap w ++ [xs]; trace := trace w |},
            Ok (length (heap w))).

Definition list_append (l : loc) (x : string) : M PyObj :=
  fun w =>
    ({| cache := cache w;
        heap := <[l := default [] (heap w !! l) ++ [x]]> (heap w);
        trace := trace w |},
     Ok PyNone).

(** The parameter bundle handed to an operation; [grouping] is a reference
    to a list object, [dataframe] is reassigned by the executor. *)
Record OperationParams := {
  operation_id : string;
  operation_name : string;
  dataframe : DataFrame;
  target : option string;
  domain : string;
  dataset_path : string;
  directory_path : string;
  datasets : list Descriptor;
  grouping : loc;
  standard : string;
  standard_version : string;
  meddra_path : option string;
  whodrug_path : option string
}.

Definition set_dataframe (p : OperationParams) (df : DataFrame)
    : OperationParams :=
  {| operation_id := operation_id p; operation_name := operation_name p;
     dataframe := df; target := target p; domain := domain p;
     dataset_path := dataset_path p; directory_path := directory_path p;
     datasets := datasets p; grouping := grouping p; standard := standard p;
     standard_version := standard_version p; meddra_path := meddra_path p;
     whodrug_path := whodrug_path p |}.

(** An operation of the data processor: it sees the parameter bundle and
    the current content of the grouping list. *)
Definition Capability := OperationParams -> list string -> Res Result.

(** What the processor is given from outside: the data service, the
    operations of the data processor looked up by name, and the constants
    and helpers it imports. *)
Record Env := {
  DETECTABLE_CLASSES : list string;
  get_directory_path : string -> string;
  get_operations_cache_key :
    string -> string -> string -> string -> option string -> string;
  get_dataset : string -> DataFrame;
  get_dataset_class : DataFrame -> string -> list Descriptor -> option string;
  is_dummy_data : bool;
  data_processor : string -> option Capability
}.

(** Modelled from the spec: [search_in_list_of_dicts] of
    [utilities/utils.py], the first item the predicate accepts, [None]
    when there is none. *)
Definition search_in_list_of_dicts {A} (items : list A) (f : A -> bool)
    : option A :=
  find f items.

Section Processor.
Variable E : Env.

(** *** Class gate *)
Definition fetch_class (file_path : string) (dsets : list Descriptor)
    : M (option string) :=
  emit (EvGetDataset file_path) ;;;
  let dataset := get_dataset E file_path in
  emit (EvGetDatasetClass file_path) ;;;
  ret (get_dataset_class E dataset file_path dsets).

Definition class_in (c : option string) (l : list string) : bool :=
  match c with Some s => py_in s l | None => false end.

Definition rule_applies_to_class (rule : Rule)
    (file_path : string) (dsets : list Descriptor) : M bool :=
  let classes :=
    default {| cls_Include := None; cls_Exclude := None |}
            (classes rule) in
  let included_classes := default [] (cls_Include classes) in
  let included_classes :=
    List.filter (fun c => py_in c (DETECTABLE_CLASSES E)) included_classes in
  let excluded_classes := default [] (cls_Exclude classes) in
  let is_included := true in
  let is_excluded := false in
  is_included <-
    (if truthy_list included_classes then
       class_name <- fetch_class file_path dsets ;;
       ret (if negb (class_in class_name included_classes)
               && negb (py_in "All" included_classes)
            then false else is_included)
     else ret is_included) ;;
  is_excluded <-
    (if truthy_list excluded_classes then
       class_name <- fetch_class file_path dsets ;;
       ret (if match class_name with
               | Some s => truthy_str s && py_in s excluded_classes
               | None => false
               end
            then true else is_excluded)
     else ret is_excluded) ;;
  ret (is_included && negb is_excluded).

(** *** Operation executor *)
Definition is_relationship_dataset (d : string) : bool :=
  if py_in d ["RELREC"; "RELSUB"; "CO"] then true
  else if startswith d "SUPP" then true
  else false.

Definition is_current_domain (dataset : DataFrame) (target_domain : string)
    : Res Compared :=
  if negb (is_relationship_dataset target_domain) then
    if df_contains dataset "DOMAIN" then
      match df_column dataset "DOMAIN" with
      | Raise e => Raise e
      | Ok col =>
          match series_getitem dataset col 0 with
          | Raise e => Raise e
          | Ok (EOne c) => Ok (CmpBool (Cell_eqb c (CStr target_domain)))
          | Ok (ESeveral cs) =>
              Ok (CmpSeries
                    (map (fun c => Cell_eqb c (CStr target_domain)) cs))
          end
      end
    else Ok (CmpBool false)
  else Ok (CmpBool false).

(** The bundle is updated in place by the executor, so the updated
    bundle is returned next to the result. *)
Definition _execute_operation (operation_to_call : Capability)
    (operation_params : OperationParams) : M (Result * OperationParams) :=
  g <- list_read (grouping operation_params) ;;
  let cache_key :=
    get_operations_cache_key E
      (directory_path operation_params)
      (operation_name operation_params)
      (domain operation_params)
      (join ";" g)
      (target operation_params) in
  result <- cache_get cache_key ;;
  hit <- lift (truthy_result result) ;;
  if (hit : bool) then ret (result, operation_params)
  else
    current <- lift (is_current_domain (dataframe operation_params)
                                       (domain operation_params)) ;;
    current <- lift (truthy_compared current) ;;
    operation_params <-
      (if negb current then
         match search_in_list_of_dicts (datasets operation_params)
                 (fun item =>
                    bool_decide (dd_domain item
                                 = Some (domain operation_params))) with
         | None => raise (TypeError "'NoneType' object is not subscriptable")
         | Some domain_details =>
             match dd_filename domain_details with
             | None => raise (KeyError "filename")
             | Some filename =>
                 let file_path :=
                   get_directory_path E (dataset_path operation_params)
                   +:+ "/" +:+ filename in
                 emit (EvGetDataset file_path) ;;;
                 ret (set_dataframe operation_params
                        (get_dataset E file_path))
             end
         end
       else ret operation_params) ;;
    g <- list_read (grouping operation_params) ;;
    emit (EvOperation (operation_name operation_params)) ;;;
    result <- lift (operation_to_call operation_params g) ;;
    (if negb (is_dummy_data E) then cache_add cache_key result
     else ret tt) ;;;
    ret (result, operation_params).

Definition _handle_operation_result (result : Result)
    (operation_params : OperationParams) : M DataFrame :=
  g <- list_read (grouping operation_params) ;;
  if truthy_list g then
    result <- lift (result_rename result (target operation_params)
                                  (operation_id operation_params)) ;;
    target_columns <- list_append (grouping operation_params)
                                  (operation_id operation_params) ;;
    selected <- lift (df_getitem result target_columns) ;;
    on <- list_read (grouping operation_params) ;;
    lift (df_merge_left (dataframe operation_params) selected on)
  else
    lift (df_setitem (dataframe operation_params)
                     (operation_id operation_params) result).

(** The bundle built for an operation declaration; [g] is the list
    object [operation.get("group", [])] gives. *)
Definition params_of (operation : Operation) (dataset_copy : DataFrame)
    (dom : string) (dsets : list Descriptor) (path std std_version : string)
    (meddra whodrug : option string) (g : loc) : OperationParams :=
  {| operation_id := op_id operation;
     operation_name := op_operator operation;
     dataframe := dataset_copy;
     target := op_name operation;
     domain := default dom (op_domain operation);
     dataset_path := path;
     directory_path := get_directory_path E path;
     datasets := dsets;
     grouping := g;
     standard := std;
     standard_version := std_version;
     meddra_path := meddra;
     whodrug_path := whodrug |}.

(** One turn of the loop over the rule's operations. *)
Definition perform_operation (dataset_copy : DataFrame) (dom : string)
    (dsets : list Descriptor) (path std std_version : string)
    (meddra whodrug : option string) (operation : Operation)
    : M DataFrame :=
  g <- match op_group operation with
       | Some l => ret l
       | None => list_new []
       end ;;
  let operation_params :=
    params_of operation dataset_copy dom dsets path std std_version
      meddra whodrug g in
  match data_processor E (operation_name operation_params) with
  | None =>
      raise (ValueError ("Operation " +:+ operation_name operation_params
                         +:+ " doesn't exist"))
  | Some operation_to_call =>
      rp <- _execute_operation operation_to_call operation_params ;;
      _handle_operation_result (fst rp) (snd rp)
  end.

Fixpoint perform_operations (dataset_copy : DataFrame) (dom : string)
    (dsets : list Descriptor) (path std std_version : string)
    (meddra whodrug : option string) (operations : list Operation)
    : M DataFrame :=
  match operations with
  | [] => ret dataset_copy
  | operation :: rest =>
      dataset_copy <- perform_operation dataset_copy dom dsets path std
                        std_version meddra whodrug operation ;;
      perform_operations dataset_copy dom dsets path std std_version
        meddra whodrug rest
  end.

(** [dataset.copy()] is the frame itself, frames being values here;
    [operations] is [rule.get("operations", [])]. *)
Definition perform_rule_operations (rule : Rule)
    (dataset : DataFrame) (dom : string) (dsets : list Descriptor)
    (path std std_version : string) (meddra whodrug : option string)
    : M DataFrame :=
  let dataset_copy := dataset in
  let operations := default [] (operations rule) in
  perform_operations dataset_copy dom dsets path std std_version
    meddra whodrug operations.
End Processor.

Section Suitability.
Variable E : Env.
Variable N : DomainNaming.

(** [required_keys = ["standards", "core_id"]]. *)
Definition valid_rule_structure (rule : Rule) : bool :=
  forallb (fun present : bool => present)
          [bool_decide (is_Some (standards rule));
           bool_decide (is_Some (core_id rule))].

Definition is_suitable_for_validation (rule : Rule) (dataset_domain : string)
    (file_path : string) (is_split_domain : bool) (dsets : list Descriptor)
    : M bool :=
  if valid_rule_structure rule then
    if rule_applies_to_domain N dataset_domain rule is_split_domain then
      rule_applies_to_class E rule file_path dsets
    else ret false
  else ret false.
End Suitability.

(** ** Regular expressions

    The patterns the rewriter builds, [^{target}\d+$], are read by a
    matcher for the part of the [re] syntax they use when the target is a
    plain name: literal characters, [\d], [.], the postfix operators
    [+ * ?], a leading [^] and a final [$].  Any other syntax is reported
    as [ReError].  Strings are sequences of ASCII characters. *)
Inductive Atom :=
| ALit (c : ascii)
| ADigit
| AAny.

Inductive Quant :=
| QOne
| QPlus
| QStar
| QOpt.

Inductive Tok :=
| TAtom (a : Atom)
| TQuant (q : Quant)
| TCaret
| TDollar.

Record Regex := {
  re_items : list (Atom * Quant);
  re_eol : bool
}.

Definition ascii_in (c : ascii) (s : string) : bool :=
  existsb (Ascii.eqb c) (list_ascii_of_string s).

Definition is_digit (c : ascii) : bool := ascii_in c "0123456789".

Definition is_word (c : ascii) : bool :=
  is_digit c
  || ascii_in c "abcdefghijklmnopqrstuvwxyzABCDEFGHIJKLMNOPQRSTUVWXYZ_".

(** Lexer; [esc] tells that the previous character was a backslash. *)
Fixpoint lex (esc : bool) (s : list ascii) : option (list Tok) :=
  match s with
  | [] => if esc then None else Some []
  | c :: rest =>
      if esc then
        if Ascii.eqb c "d" then cons (TAtom ADigit) <$> lex false rest
        else if is_word c then None
        else cons (TAtom (ALit c)) <$> lex false rest
      else if Ascii.eqb c "\" then lex true rest
      else if Ascii.eqb c "." then cons (TAtom AAny) <$> lex false rest
      else if Ascii.eqb c "+" then cons (TQuant QPlus) <$> lex false rest
      else if Ascii.eqb c "*" then cons (TQuant QStar) <$> lex false rest
      else if Ascii.eqb c "?" then cons (TQuant QOpt) <$> lex false rest
      else if Ascii.eqb c "^" then cons TCaret <$> lex false rest
      else if Ascii.eqb c "$" then cons TDollar <$> lex false rest
      else if ascii_in c "[](){}|" then None
      else cons (TAtom (ALit c)) <$> lex false rest
  end.

Fixpoint build (toks : list Tok) : option Regex :=
  match toks with
  | [] => Some {| re_items := []; re_eol := false |}
  | [TDollar] => Some {| re_items := []; re_eol := true |}
  | TAtom a :: TQuant q :: rest =>
      match rest with
      | TQuant _ :: _ => None
      | _ =>
          r ← build rest;
          Some {| re_items := (a, q) :: re_items r; re_eol := re_eol r |}
      end
  | TAtom a :: rest =>
      r ← build rest;
      Some {| re_items := (a, QOne) :: re_items r; re_eol := re_eol r |}
  | _ => None
  end.

Definition re_compile (pattern : string) : option Regex :=
  toks ← lex false (list_ascii_of_string pattern);
  match toks with
  | TCaret :: rest => build rest
  | _ => build toks
  end.

Definition atom_matches (a : Atom) (c : ascii) : bool :=
  match a with
  | ALit l => Ascii.eqb l c
  | ADigit => is_digit c
  | AAny => negb (Ascii.eqb c "010")
  end.

(** Does some prefix of [s] match the items, the end of the pattern
    standing at the end of [s] or before its final newline when [eol]? *)
Fixpoint match_items (eol : bool) (its : list (Atom * Quant)) (s : list ascii)
    : bool :=
  match its with
  | [] =>
      if eol
      then match s with [] => true | [c] => Ascii.eqb c "010" | _ => false end
      else true
  | (a, q) :: rest =>
      let many :=
        fix many (s : list ascii) : bool :=
          match_items eol rest s
          || match s with
             | c :: s' => atom_matches a c && many s'
             | [] => false
             end in
      let one (k : list ascii -> bool) :=
        match s with
        | c :: s' => atom_matches a c && k s'
        | [] => false
        end in
      match q with
      | QOne => one (match_items eol rest)
      | QOpt => one (match_items eol rest) || match_items eol rest s
      | QStar => many s
      | QPlus => one many
      end
  end.

(** [re.match(pattern, s)] as a truth value. *)
Definition re_match (pattern s : string) : Res bool :=
  match re_compile pattern with
  | None => Raise (ReError pattern)
  | Some r =>
      Ok (match_items (re_eol r) (re_items r) (list_ascii_of_string s))
  end.

(** ** Condition tree rewriter *)

Definition empty_value : Value :=
  {| v_target := None; v_comparator := None; v_unit := None |}.

Definition set_target (v : Value) (t : string) : Value :=
  {| v_target := Some t; v_comparator := v_comparator v; v_unit := v_unit v |}.

Definition set_comparator (v : Value) (c : string) : Value :=
  {| v_target := v_target v; v_comparator := Some c; v_unit := v_unit v |}.

Definition set_value (c : Condition) (v : Value) : Condition :=
  match c with
  | mkCondition n o _ b => mkCondition n o (Some v) b
  end.

(** The body of the inner loop: a deep copy of the condition with
    [value.target] set. *)
Definition target_condition (condition : Condition) (t : string) : Condition :=
  let condition_copy := condition in
  let value := default empty_value (c_value condition_copy) in
  let value := set_target value t in
  set_value condition_copy value.

Definition create_list_of_target_conditions (condition_list : list Condition)
    (targets : list string) : list Condition :=
  flat_map
    (fun condition =>
       let target_conditions := map (target_condition condition) targets in
       target_conditions)
    condition_list.

Definition set_conditions (rule : Rule) (t : ConditionInterface) : Rule :=
  {| core_id := core_id rule; standards := standards rule;
     domains := domains rule; classes := classes rule;
     conditions := t; operations := operations rule;
     output_variables := output_variables rule |}.

(** The rule is changed by reference: the rule after the call is returned. *)
Definition create_list_of_conditions_for_each_target (rule : Rule)
    (targets : list string) : Rule :=
  let new_conditions :=
    map (fun kc => (fst kc, create_list_of_target_conditions (snd kc) targets))
        (items (conditions rule)) in
  set_conditions rule (get_condition_composite new_conditions).

(** Threading a list through a traversal. *)
Definition thread {A S} (f : A -> S -> A * S) : list A -> S -> list A * S :=
  fix go (l : list A) (s : S) : list A * S :=
    match l with
    | [] => ([], s)
    | a :: l' =>
        let (a', s') := f a s in
        let (l'', s'') := go l' s' in
        (a' :: l'', s'')
    end.

(** The dictionaries [values] hands out are the leaves of the tree
    themselves: what a loop over [values] writes into them is seen in the
    tree.  [refill] puts the leaves back in traversal order. *)
Fixpoint refill (c : Condition) (new : list Condition)
    : Condition * list Condition :=
  match c with
  | mkCondition _ _ _ [] =>
      match new with
      | c' :: rest => (c', rest)
      | [] => (c, [])
      end
  | mkCondition n o v branches =>
      let (branches', rest) :=
        thread (fun b s =>
                  let (cs, s') := thread refill (snd b) s in
                  ((fst b, cs), s'))
               branches new in
      (mkCondition n o v branches', rest)
  end.

Definition refill_branch (b : AllowedConditionsKeys * list Condition)
    (s : list Condition)
    : (AllowedConditionsKeys * list Condition) * list Condition :=
  let (cs, s') := thread refill (snd b) s in ((fst b, cs), s').

Definition set_values (t : ConditionInterface) (new : list Condition)
    : ConditionInterface :=
  fst (thread refill_branch t new).

(** [for condition in conditions.values(): body]: the leaves before a
    raising one have been written, the others are as they were. *)
Fixpoint for_each_value (body : Condition -> Res Condition)
    (ls : list Condition) : list Condition * Res unit :=
  match ls with
  | [] => ([], Ok tt)
  | c :: rest =>
      match body c with
      | Raise e => (c :: rest, Raise e)
      | Ok c' =>
          let (rest', r) := for_each_value body rest in
          (c' :: rest', r)
      end
  end.

(** Truth value of the [comparator] argument: a non-empty dictionary. *)
Definition truthy_dict (d : option (gmap string string)) : bool :=
  match d with
  | Some m => negb (bool_decide (m = ∅))
  | None => false
  end.

Definition truthy_opt_str (s : option string) : bool :=
  match s with Some x => truthy_str x | None => false end.

(** [value["target"]]. *)
Definition value_target (v : Value) : Res string :=
  match v_target v with
  | Some t => Ok t
  | None => Raise (KeyError "target")
  end.

Definition add_comparator_body (comparator : option (gmap string string))
    (target_prefix : option string) (condition : Condition) : Res Condition :=
  match c_value condition with
  | None => Raise (KeyError "value")
  | Some value =>
      let comparator_to_add : Res (option string) :=
        if truthy_dict comparator then
          match value_target value with
          | Ok t => Ok (default ∅ comparator !! t)
          | Raise e => Raise e
          end
        else if truthy_opt_str target_prefix then
          match value_target value with
          | Ok t => Ok (Some (default "" target_prefix +:+ t))
          | Raise e => Raise e
          end
        else Ok None in
      match comparator_to_add with
      | Raise e => Raise e
      | Ok to_add =>
          if truthy_opt_str to_add
          then Ok (set_value condition
                     (set_comparator value (default "" to_add)))
          else Ok condition
      end
  end.

(** The rule is changed by reference: the rule after the call is returned
    with the outcome. *)
Definition add_comparator_to_rule_conditions (rule : Rule)
    (comparator : option (gmap string string)) (target_prefix : option string)
    : Rule * Res unit :=
  let (ls, r) :=
    for_each_value (add_comparator_body comparator target_prefix)
                   (values (conditions rule)) in
  (set_conditions rule (set_values (conditions rule) ls), r).

Definition get_operator_related_pattern (operator : option string)
    (t : string) : option string :=
  let operator_related_patterns : list (string * string) :=
    [("additional_columns_empty", "^" +:+ t +:+ "\d+$");
     ("additional_columns_not_empty", "^" +:+ t +:+ "\d+$")] in
  match operator with
  | Some op => assoc_get op operator_related_patterns
  | None => None
  end.

(** [filter(lambda name: re.match(pattern, name), column_names)]. *)
Fixpoint filter_matching (pattern : string) (column_names : list string)
    : Res (list string) :=
  match column_names with
  | [] => Ok []
  | name :: rest =>
      match re_match pattern name with
      | Raise e => Raise e
      | Ok b =>
          match filter_matching pattern rest with
          | Raise e => Raise e
          | Ok l => Ok (if b then name :: l else l)
          end
      end
  end.

(** The loop of [extract_target_names_from_rule] over the leaves. *)
Fixpoint collect_target_names (dom : string) (column_names : list string)
    (ls : list Condition) (target_names : list string) : Res (list string) :=
  match ls with
  | [] => Ok target_names
  | condition :: rest =>
      match c_value condition with
      | None => Raise (KeyError "value")
      | Some value =>
          match v_target value with
          | None => collect_target_names dom column_names rest target_names
          | Some t =>
              let t := str_replace t "--" dom None in
              match get_operator_related_pattern (c_operator condition) t with
              | Some op_related_pattern =>
                  match filter_matching op_related_pattern column_names with
                  | Raise e => Raise e
                  | Ok matching =>
                      collect_target_names dom column_names rest
                        (target_names ++ matching)
                  end
              | None =>
                  collect_target_names dom column_names rest
                    (target_names ++ [t])
              end
          end
      end
  end.

Definition extract_target_names_from_rule (rule : Rule) (dom : string)
    (column_names : list string) : Res (gset string) :=
  let out := default [] (output_variables rule) in
  let target_names :=
    if truthy_list out then
      Ok (map (fun var => str_replace var "--" dom (Some 1%nat)) out)
    else
      collect_target_names dom column_names (values (conditions rule)) [] in
  match target_names with
  | Raise e => Raise e
  | Ok names => Ok (list_to_set (merge_sort String.le names))
  end.
(** ** Observations on a run *)

(** How often the dataset class was asked of the data service. *)
Definition class_fetches (tr : list Event) : nat :=
  length (List.filter (fun ev => match ev with EvGetDatasetClass _ => true | _ => false end) tr).

(** How often an operation of the data processor was called. *)
Definition operation_calls (tr : list Event) : nat :=
  length (List.filter (fun ev => match ev with EvOperation _ => true | _ => false end) tr).

Definition is_leaf (c : Condition) : bool :=
  match c_nested c with [] => true | _ :: _ => false end.

Definition is_leaf_prop (c : Condition) : Prop := is_leaf c = true.

(** [f] writes the first elements of the supply [s] over the outputs of
    [a] and hands the rest on. *)
Definition refills {A L} (f : A -> list L -> A * list L) (out : A -> list L)
    (ok : L -> Prop) (a : A) : Prop :=
  forall s : list L,
    length (out a) <= length s ->
    Forall ok (take (length (out a)) s) ->
    out (fst (f a s)) = take (length (out a)) s
    /\ snd (f a s) = drop (length (out a)) s.

Definition is_additional_columns_operator (operator : option string) : bool :=
  match operator with
  | Some op => py_in op ["additional_columns_empty"; "additional_columns_not_empty"]
  | None => false
  end.

(** The calls the class gate makes for one list that is not empty. *)
Definition class_lookup (file_path : string) (l : list string) : list Event :=
  if truthy_list l
  then [EvGetDataset file_path; EvGetDatasetClass file_path]
  else [].

Definition detectable_included (E : Env) (rule : Rule) : list string :=
  List.filter (fun c => py_in c (DETECTABLE_CLASSES E))
    (default [] (cls_Include
       (default {| cls_Include := None; cls_Exclude := None |}
                (classes rule)))).

Definition declared_excluded (rule : Rule) : list string :=
  default [] (cls_Exclude
    (default {| cls_Include := None; cls_Exclude := None |} (classes rule))).

(** The key under which the executor caches the result of an operation. *)
Definition cache_key_of (E : Env) (p : OperationParams) (w : World) : string :=
  get_operations_cache_key E (directory_path p) (operation_name p) (domain p)
    (join ";" (default [] (heap w !! grouping p))) (target p).

(** The pattern of the additional-columns operators for a resolved
    target. *)
Definition additional_columns_pattern (t : string) : string :=
  "^" +:+ t +:+ "\d+$".

(** A leaf the extraction can read: it has a [value], and when it has a
    target and an additional-columns operator, the pattern made of the
    resolved target is one the matcher reads. *)
Definition leaf_readable (dom : string) (c : Condition) : Prop :=
  exists v, c_value c = Some v
    /\ forall t, v_target v = Some t ->
         is_additional_columns_operator (c_operator c) = true ->
         is_Some (re_compile
                    (additional_columns_pattern (str_replace t "--" dom None))).


(** ** Sample data *)

Definition empty_world : World := {| cache := ∅; heap := []; trace := [] |}.

Definition rule_with_domains (d : Domains) : Rule :=
  {| core_id := Some "CORE-000001"; standards := Some ["sdtmig"];
     domains := Some d; classes := None; conditions := [];
     operations := None; output_variables := None |}.

Definition rule_with_classes (c : Classes) : Rule :=
  {| core_id := Some "CORE-000001"; standards := Some ["sdtmig"];
     domains := None; classes := Some c; conditions := [];
     operations := None; output_variables := None |}.

Definition rule_with_operations (ops : list Operation) : Rule :=
  {| core_id := Some "CORE-000001"; standards := Some ["sdtmig"];
     domains := None; classes := None; conditions := [];
     operations := Some ops; output_variables := None |}.

Definition rule_with_conditions (t : ConditionInterface) : Rule :=
  {| core_id := Some "CORE-000001"; standards := Some ["sdtmig"];
     domains := None; classes := None; conditions := t;
     operations := None; output_variables := None |}.

(** The adverse-events dataset the samples work on, and the demographics
    dataset next to it. *)
Definition ae_frame : DataFrame :=
  {| nrows := 3;
     index := RangeIndex;
     columns := [("DOMAIN", [CStr "AE"; CStr "AE"; CStr "AE"]);
                 ("USUBJID", [CStr "S1"; CStr "S1"; CStr "S2"]);
                 ("AESEQ", [CInt 0; CInt 1; CInt 0])] |}.

Definition dm_frame : DataFrame :=
  {| nrows := 2;
     index := RangeIndex;
     columns := [("DOMAIN", [CStr "DM"; CStr "DM"]);
                 ("USUBJID", [CStr "S1"; CStr "S2"]);
                 ("AGE", [CInt 34; CInt 51])] |}.

(** The adverse events left when the first row is dropped: the rows keep
    their labels 1 and 2. *)
Definition filtered_ae_frame : DataFrame :=
  {| nrows := 2;
     index := IntIndex [1; 2]%Z;
     columns := [("DOMAIN", [CStr "AE"; CStr "AE"]);
                 ("USUBJID", [CStr "S1"; CStr "S2"]);
                 ("AESEQ", [CInt 1; CInt 0])] |}.

Definition empty_ae_frame : DataFrame :=
  {| nrows := 0; index := RangeIndex;
     columns := [("DOMAIN", []); ("AESEQ", [])] |}.

Definition sample_datasets : list Descriptor :=
  [{| dd_domain := Some "AE"; dd_filename := Some "ae.xpt" |};
   {| dd_domain := Some "DM"; dd_filename := Some "dm.xpt" |}].

(** Sample operations of the data processor: the minimum of the target
    column, its distinct values as a column, and the per-subject maximum
    as a frame keyed by [USUBJID]. *)
Definition sample_operations (name : string) : option Capability :=
  if String.eqb name "min" then Some (fun _ _ => Ok (RScalar (CInt 0)))
  else if String.eqb name "distinct" then
    Some (fun _ _ => Ok (RSeries [CInt 0; CInt 1]))
  else if String.eqb name "max" then
    Some (fun _ _ =>
            Ok (RFrame {| nrows := 2;
                          index := RangeIndex;
                          columns := [("USUBJID", [CStr "S1"; CStr "S2"]);
                                      ("AESEQ", [CInt 1; CInt 0])] |}))
  else if String.eqb name "record_count" then
    Some (fun p _ => Ok (RScalar (CInt (Z.of_nat (nrows (dataframe p))))))
  else None.

(** Modelled from the spec: the detectable classes are a constant of
    [constants/classes.py]; the glossary names the classes Events and
    Interventions.  The directory of a path and the key of an operation
    signature come from [utilities/utils.py]; the sample key joins the
    parts of the signature. *)
Definition sample_env : Env := {|
  DETECTABLE_CLASSES := ["Events"; "Interventions"];
  get_directory_path := fun _ => "/data";
  get_operations_cache_key := fun dir name dom grp tgt =>
    join "/" ["operations"; dir; dom; name; grp; default "None" tgt];
  get_dataset := fun path =>
    if String.eqb path "/data/dm.xpt" then dm_frame else ae_frame;
  get_dataset_class := fun _ _ _ => Some "Events";
  is_dummy_data := false;
  data_processor := sample_operations
|}.

(** Sample operation declarations: the per-subject maximum (grouped by
    [USUBJID], the list object at address 0 of [grouped_world]), the
    minimum and the distinct values of [AESEQ], and the record count of
    the demographics domain. *)
Definition grouped_world : World :=
  {| cache := ∅; heap := [["USUBJID"]]; trace := [] |}.

Definition max_by_subject : Operation :=
  {| op_id := "$max_aeseq"; op_operator := "max"; op_name := Some "AESEQ";
     op_domain := None; op_group := Some 0%nat |}.

Definition min_aeseq (id : string) : Operation :=
  {| op_id := id; op_operator := "min"; op_name := Some "AESEQ";
     op_domain := None; op_group := None |}.

Definition distinct_aeseq (id : string) : Operation :=
  {| op_id := id; op_operator := "distinct"; op_name := Some "AESEQ";
     op_domain := None; op_group := None |}.

Definition dm_record_count : Operation :=
  {| op_id := "$dm_count"; op_operator := "record_count"; op_name := None;
     op_domain := Some "DM"; op_group := None |}.

(** A run of the executor on the adverse-events dataset. *)
Definition run_on_ae (ops : list Operation) (w : World) : World * Res DataFrame :=
  perform_rule_operations sample_env (rule_with_operations ops) ae_frame "AE"
    sample_datasets "/data/ae.xpt" "sdtmig" "3-4" None None w.

(** A tree with a nested branch, for the rewriter. *)
Definition nested_tree : ConditionInterface :=
  [(ALL,
    [mkCondition None (Some "equal_to")
       (Some {| v_target := Some "USUBJID"; v_comparator := None;
                v_unit := None |}) [];
     mkCondition None None None
       [(ANY,
         [mkCondition None (Some "equal_to")
            (Some {| v_target := Some "--SEQ"; v_comparator := Some "IDVARVAL";
                     v_unit := None |}) [];
          mkCondition None (Some "non_empty")
            (Some {| v_target := Some "IDVAR"; v_comparator := None;
                     v_unit := None |}) [] ])] ])].



(** A rule whose [domains] record is the given one. *)
Definition domains_or_empty (rule : Rule) : Domains :=
  default {| Include := None; Exclude := None;
             include_split_datasets := None |} (domains rule).

(** The class the data service gives for a file. *)
Definition class_of (E : Env) (file_path : string) (dsets : list Descriptor)
    : option string :=
  get_dataset_class E (get_dataset E file_path) file_path dsets.

(** A data service that cannot tell the class of any dataset. *)
Definition classless_env : Env := {|
  DETECTABLE_CLASSES := DETECTABLE_CLASSES sample_env;
  get_directory_path := get_directory_path sample_env;
  get_operations_cache_key := get_operations_cache_key sample_env;
  get_dataset := get_dataset sample_env;
  get_dataset_class := fun _ _ _ => None;
  is_dummy_data := false;
  data_processor := data_processor sample_env
|}.

(** The sample environment with the data service in placeholder mode. *)
Definition dummy_env : Env := {|
  DETECTABLE_CLASSES := DETECTABLE_CLASSES sample_env;
  get_directory_path := get_directory_path sample_env;
  get_operations_cache_key := get_operations_cache_key sample_env;
  get_dataset := get_dataset sample_env;
  get_dataset_class := get_dataset_class sample_env;
  is_dummy_data := true;
  data_processor := data_processor sample_env
|}.

(** The verdict of the class gate for a class the data service gave. *)
Definition class_verdict (included excluded : list string)
    (class_name : option string) : bool :=
  (negb (truthy_list included) || class_in class_name included
   || py_in "All" included)
  && negb (truthy_list excluded
           && match class_name with
              | Some s => truthy_str s && py_in s excluded
              | None => false
              end).

(** Descriptors with a comments dataset, and an operation on it. *)
Definition datasets_with_comments : list Descriptor :=
  sample_datasets ++ [{| dd_domain := Some "CO"; dd_filename := Some "co.xpt" |}].

Definition co_record_count_params (df : DataFrame) : OperationParams :=
  {| operation_id := "$co_count"; operation_name := "record_count";
     dataframe := df; target := None; domain := "CO";
     dataset_path := "/data/co.xpt"; directory_path := "/data";
     datasets := datasets_with_comments; grouping := 0%nat;
     standard := "sdtmig"; standard_version := "3-4"; meddra_path := None;
     whodrug_path := None |}.

Definition co_frame : DataFrame :=
  {| nrows := 1; index := RangeIndex; columns := [("DOMAIN", [CStr "CO"])] |}.

(** The bundle of the record count of a domain without descriptor. *)
Definition lb_record_count_params : OperationParams :=
  {| operation_id := "$lb_count"; operation_name := "record_count";
     dataframe := ae_frame; target := None; domain := "LB";
     dataset_path := "/data/ae.xpt"; directory_path := "/data";
     datasets := sample_datasets; grouping := 0%nat;
     standard := "sdtmig"; standard_version := "3-4"; meddra_path := None;
     whodrug_path := None |}.

Definition record_count_capability : Capability :=
  fun p _ => Ok (RScalar (CInt (Z.of_nat (nrows (dataframe p))))).


(** A computation that leaves the cache as it finds it. *)
Definition keeps_cache {A} (m : M A) : Prop :=
  forall w, cache (fst (m w)) = cache w.

(** ** More of the condition tree rewriter *)

(** The loop of [get_size_unit_from_rule] over the leaves: the unit of the
    first leaf whose target is [dataset_size], [None] when the loop runs
    out. *)
Fixpoint size_unit_of (ls : list Condition) : Res (option string) :=
  match ls with
  | [] => Ok None
  | condition :: rest =>
      match c_value condition with
      | None => Raise (KeyError "value")
      | Some value =>
          match value_target value with
          | Raise e => Raise e
          | Ok t =>
              if String.eqb t "dataset_size" then Ok (v_unit value)
              else size_unit_of rest
          end
      end
  end.

Definition get_size_unit_from_rule (rule : Rule) : Res (option string) :=
  size_unit_of (values (conditions rule)).

(** A value of [target_to_operator_map]: one operator or a list of them. *)
Inductive OperatorToAdd :=
| OneOperator (operator : string)
| SeveralOperators (operators : list string).

Definition truthy_operator (o : option OperatorToAdd) : bool :=
  match o with
  | Some (OneOperator s) => truthy_str s
  | Some (SeveralOperators l) => truthy_list l
  | None => false
  end.

(** [{**condition, "operator": operator}]. *)
Definition with_operator (c : Condition) (operator : string) : Condition :=
  match c with
  | mkCondition n _ v b => mkCondition n (Some operator) v b
  end.

(** [condition.get("value", {}).get("target", "").replace("--", domain)]. *)
Definition resolved_target (dom : string) (condition : Condition) : string :=
  str_replace
    (default "" (v_target (default empty_value (c_value condition))))
    "--" dom None.

(** The body of the loop of [add_operator_to_rule_conditions]: what the
    condition dictionary is after the turn. *)
Definition add_operator_body (target_to_operator_map : gmap string OperatorToAdd)
    (dom : string) (condition : Condition) : Condition :=
  let t := resolved_target dom condition in
  let operator_to_add := target_to_operator_map !! t in
  if negb (truthy_operator operator_to_add) then condition
  else
    match operator_to_add with
    | Some (OneOperator s) => with_operator condition s
    | Some (SeveralOperators l) =>
        let nested_conditions := map (with_operator condition) l in
        mkCondition None None None [(ANY, nested_conditions)]
    | None => condition
    end.

(** The rule is changed by reference: the rule after the call. *)
Definition add_operator_to_rule_conditions (rule : Rule)
    (target_to_operator_map : gmap string OperatorToAdd) (dom : string)
    : Rule :=
  let (ls, _) :=
    for_each_value
      (fun c => Ok (add_operator_body target_to_operator_map dom c))
      (values (conditions rule)) in
  set_conditions rule (set_values (conditions rule) ls).

(** The loop of [extract_referenced_variables_from_rule]. *)
Fixpoint collect_referenced (ls : list Condition) (target_names : list string)
    : Res (list string) :=
  match ls with
  | [] => Ok target_names
  | condition :: rest =>
      match c_value condition with
      | None => Raise (KeyError "value")
      | Some value =>
          let t := v_target value in
          let comparator := v_comparator value in
          let target_names :=
            if truthy_opt_str t then target_names ++ [default "" t]
            else target_names in
          let target_names :=
            if truthy_opt_str comparator
            then target_names ++ [default "" comparator]
            else target_names in
          collect_referenced rest target_names
      end
  end.

Definition extract_referenced_variables_from_rule (rule : Rule)
    : Res (list string) :=
  collect_referenced (values (conditions rule)) [].

(** What the rewriter may not touch in a leaf when it adds comparators:
    the name, the operator, the target and the unit. *)
Definition leaf_frame (c : Condition)
    : option string * option string * option (option string * option string) :=
  (c_name c, c_operator c,
   (fun v => (v_target v, v_unit v)) <$> c_value c).

(** With a replaced element that need not be a leaf, [f] writes the first
    elements of the supply over the outputs of [a]; what is read back are
    the outputs [g] of what was written. *)
Definition rewrites {A L} (f : A -> list L -> A * list L) (out : A -> list L)
    (g : L -> list L) (a : A) : Prop :=
  forall s : list L,
    length (out a) <= length s ->
    out (fst (f a s)) = flat_map g (take (length (out a)) s)
    /\ snd (f a s) = drop (length (out a)) s.

(** A tree with a leaf on the size of the dataset. *)
Definition size_tree : ConditionInterface :=
  [(ALL,
    [mkCondition None (Some "non_empty")
       (Some {| v_target := Some "AESEQ"; v_comparator := None;
                v_unit := Some "rows" |}) [];
     mkCondition None (Some "less_than")
       (Some {| v_target := Some "dataset_size"; v_comparator := Some "5";
                v_unit := Some "MB" |}) [];
     mkCondition None (Some "less_than")
       (Some {| v_target := Some "dataset_size"; v_comparator := Some "1";
                v_unit := Some "GB" |}) [] ])].

(** A map of operators for the targets of [nested_tree] in domain [AE]. *)
Definition sample_operator_map : gmap string OperatorToAdd :=
  {[ "USUBJID" := OneOperator "exists";
     "AESEQ" := SeveralOperators ["is_unique_set"; "non_empty"] ]}.

(** The target of a leaf, empty when it has none. *)
Definition target_of (c : Condition) : string :=
  default "" (c_value c ≫= v_target).

(** A tree with a leaf that has no [value]. *)
Definition broken_tree : ConditionInterface :=
  [(ALL,
    [mkCondition None (Some "equal_to")
       (Some {| v_target := Some "--SEQ"; v_comparator := None;
                v_unit := None |}) [];
     mkCondition (Some "get_dataset") (Some "non_empty") None [] ])].

Definition rule_with_output_variables (t : ConditionInterface)
    (out : list string) : Rule :=
  {| core_id := Some "CORE-000001"; standards := Some ["sdtmig"];
     domains := None; classes := None; conditions := t;
     operations := None; output_variables := Some out |}.

(** ** Row numbers of the dataset builder

    [BaseDatasetBuilder.add_row_number]: the column [row_number] is set to
    [range(1, len(dataframe) + 1)]; the frame is changed in place, the
    frame after the call is returned. *)
Definition add_row_number (dataframe : DataFrame) : DataFrame :=
  {| nrows := nrows dataframe;
     index := index dataframe;
     columns := assoc_set "row_number"
                  (map (fun i => CInt (Z.of_nat i)) (seq 1 (nrows dataframe)))
                  (columns dataframe) |}.

(** ** WHODrug terms *)

(** The characters [str.strip] removes, among the ASCII characters. *)
Definition is_whitespace (c : ascii) : bool :=
  let n := nat_of_ascii c in
  (Nat.leb 9 n && Nat.leb n 13) || (Nat.leb 28 n && Nat.leb n 31)
  || Nat.eqb n 32.

Fixpoint lstrip (s : string) : string :=
  match s with
  | EmptyString => EmptyString
  | String c s' => if is_whitespace c then lstrip s' else s
  end.

Fixpoint rstrip (s : string) : string :=
  match s with
  | EmptyString => EmptyString
  | String c s' =>
      match rstrip s' with
      | EmptyString => if is_whitespace c then EmptyString
                       else String c EmptyString
      | r => String c r
      end
  end.

(** [s.strip()]. *)
Definition strip (s : string) : string := lstrip (rstrip s).

(** [s[start:stop]] for [0 <= start <= stop]. *)
Definition slice (s : string) (start stop : nat) : string :=
  String.substring start (stop - start) s.

Fixpoint spaces (n : nat) : string :=
  match n with
  | O => EmptyString
  | S k => String " " (spaces k)
  end.

(** [s.ljust(n)]. *)
Definition ljust (s : string) (n : nat) : string :=
  s +:+ spaces (n - String.length s).

(** A record of the ATC classification (DDA) file. *)
Record AtcClassification := {
  atc_type : string;
  parentCode : string;
  code : string
}.

(** [AtcClassification.from_txt_line(dictionary_id, line)]; the record
    type is the value of [WhodrugRecordTypes.ATC_CLASSIFICATION]. *)
Definition from_txt_line (ATC_CLASSIFICATION : string)
    (dictionary_id line : string) : AtcClassification :=
  {| parentCode := strip (slice line 0 6);
     code := strip (slice line 12 19);
     atc_type := ATC_CLASSIFICATION |}.

Section WhoDrugTermsFactory.
(** The term objects, with their [type] attribute. *)
Variable Term : Type.
Variable term_type : Term -> string.
(** The values of [WhodrugFileNames]. *)
Variables DD_FILE_NAME DDA_FILE_NAME INA_FILE_NAME : string.
Variable ATC_CLASSIFICATION : string.
(** [DrugDictionary.from_txt_line] and [AtcText.from_txt_line], called
    with their positional arguments. *)
Variables DrugDictionary AtcText : list string -> Res Term.
(** An ATC classification record as a term object. *)
Variable atc_term : AtcClassification -> Term.
(** The files: the lines of every file that exists, and the exception
    [open] raises for a path that does not exist. *)
Variable files : gmap string (list string).
Variable FileNotFoundError : string -> Exn.

(** A call of [AtcClassification.from_txt_line] with positional
    arguments: the method takes [dictionary_id] and [line]. *)
Definition AtcClassification_from_txt_line (args : list string) : Res Term :=
  match args with
  | [dictionary_id; line] =>
      Ok (atc_term (from_txt_line ATC_CLASSIFICATION dictionary_id line))
  | _ =>
      Raise (TypeError "from_txt_line() missing 1 required positional argument: 'line'")
  end.

(** [self.__file_name_model_map], a dictionary literal. *)
Definition file_name_model_map : list (string * (list string -> Res Term)) :=
  assoc_set INA_FILE_NAME AtcText
    (assoc_set DDA_FILE_NAME AtcClassification_from_txt_line
       (assoc_set DD_FILE_NAME DrugDictionary [])).

(** [code_to_term_map[term_obj.type].append(term_obj)] on a
    [defaultdict(list)]. *)
Definition append_term (m : gmap string (list Term)) (t : Term)
    : gmap string (list Term) :=
  <[term_type t := default [] (m !! term_type t) ++ [t]]> m.

(** The loop over the lines of a file. *)
Fixpoint create_terms (model_class : list string -> Res Term)
    (lines : list string) (code_to_term_map : gmap string (list Term))
    : Res (gmap string (list Term)) :=
  match lines with
  | [] => Ok code_to_term_map
  | line :: rest =>
      match model_class [line] with
      | Raise e => Raise e
      | Ok term_obj =>
          create_terms model_class rest (append_term code_to_term_map term_obj)
      end
  end.

Definition __create_term_objects_from_file
    (code_to_term_map : gmap string (list Term))
    (dictionary_filename file_path : string)
    : Res (gmap string (list Term)) :=
  match assoc_get dictionary_filename file_name_model_map with
  | None => Raise (KeyError dictionary_filename)
  | Some model_class =>
      match files !! file_path with
      | None => Raise (FileNotFoundError file_path)
      | Some lines => create_terms model_class lines code_to_term_map
      end
  end.

(** The loop of [install_terms] over the file names of the map. *)
Fixpoint install_files (directory_path : string) (names : list string)
    (code_to_term_map : gmap string (list Term))
    : Res (gmap string (list Term)) :=
  match names with
  | [] => Ok code_to_term_map
  | dictionary_filename :: rest =>
      let file_path := directory_path +:+ "/" +:+ dictionary_filename in
      if negb (bool_decide (is_Some (files !! file_path)))
      then install_files directory_path rest code_to_term_map
      else
        match __create_term_objects_from_file code_to_term_map
                dictionary_filename file_path with
        | Raise e => Raise e
        | Ok m => install_files directory_path rest m
        end
  end.

Definition install_terms (directory_path : string)
    : Res (gmap string (list Term)) :=
  install_files directory_path (map fst file_name_model_map) ∅.

(** Reading the lines of the files in the order of the map, without
    grouping: the terms in file order, then line order. *)
Fixpoint read_lines (model_class : list string -> Res Term)
    (lines : list string) : Res (list Term) :=
  match lines with
  | [] => Ok []
  | line :: rest =>
      match model_class [line], read_lines model_class rest with
      | Raise e, _ => Raise e
      | Ok _, Raise e => Raise e
      | Ok t, Ok ts => Ok (t :: ts)
      end
  end.

Fixpoint read_files (directory_path : string) (names : list string)
    : Res (list Term) :=
  match names with
  | [] => Ok []
  | name :: rest =>
      match files !! (directory_path +:+ "/" +:+ name) with
      | None => read_files directory_path rest
      | Some lines =>
          match assoc_get name file_name_model_map with
          | None => Raise (KeyError name)
          | Some model_class =>
              match read_lines model_class lines,
                    read_files directory_path rest with
              | Raise e, _ => Raise e
              | Ok _, Raise e => Raise e
              | Ok ts, Ok ts' => Ok (ts ++ ts')
              end
          end
      end
  end.

(** The terms of one type among a list of terms, in order. *)
Definition of_type (ty : string) (ts : list Term) : list Term :=
  List.filter (fun t => String.eqb (term_type t) ty) ts.
End WhoDrugTermsFactory.

(** Sample WHODrug files: a drug dictionary of two records and an ATC
    classification file of one; drug records are read as terms of type
    [DD] carrying the line. *)
Definition sample_term : Type := string * string.

Definition sample_dd (args : list string) : Res sample_term :=
  match args with
  | [line] => Ok ("DD", line)
  | _ => Raise (TypeError "from_txt_line() takes 2 positional arguments")
  end.

Definition sample_atc_term (a : AtcClassification) : sample_term :=
  (atc_type a, parentCode a +:+ "/" +:+ code a).

Definition dd_only_files : gmap string (list string) :=
  {[ "/whodrug/DD.txt" := ["000001 ASPIRIN"; "000002 IBUPROFEN"] ]}.

Definition dda_files : gmap string (list string) :=
  {[ "/whodrug/DDA.txt" := ["000001      N02BA  "] ]}.

(** ** Data files of the command line

    [valid_data_file] of [core.py]; [DEFINE_XML_FILE_NAME] is a constant of
    [constants/define_xml_constants.py].  Strings are ASCII. *)
Definition lower_char (c : ascii) : ascii :=
  let n := nat_of_ascii c in
  if Nat.leb 65 n && Nat.leb n 90 then ascii_of_nat (n + 32) else c.

(** [s.lower()]. *)
Fixpoint lower (s : string) : string :=
  match s with
  | EmptyString => EmptyString
  | String c s' => String (lower_char c) (lower s')
  end.

Fixpoint has_slash (s : string) : bool :=
  match s with
  | EmptyString => false
  | String c s' => Ascii.eqb c "/" || has_slash s'
  end.

(** [os.path.basename(p)]: what follows the last slash. *)
Fixpoint basename (p : string) : string :=
  match p with
  | EmptyString => EmptyString
  | String c p' =>
      if has_slash p' then basename p'
      else if Ascii.eqb c "/" then p' else p
  end.

(** [s.endswith(suffix)]. *)
Definition endswith (s suffix : string) : bool :=
  Nat.leb (String.length suffix) (String.length s)
  && String.eqb
       (String.substring (String.length s - String.length suffix)
          (String.length suffix) s)
       suffix.

Definition valid_data_file (DEFINE_XML_FILE_NAME : string)
    (file_name data_format : string) : bool :=
  let fn := basename file_name in
  negb (String.eqb (lower fn) DEFINE_XML_FILE_NAME)
  && endswith (lower fn) ("." +:+ lower data_format).

(** * Properties *)

(** ** Domain gate *)

Lemma py_in_In (x : string) (l : list string) : py_in x l = true <-> In x l.
Proof.
  unfold py_in. rewrite existsb_exists. split.
  - intros [y [Hy He]]. apply String.eqb_eq in He. by subst.
  - intros H. exists x. split; [done | apply String.eqb_refl].
Qed.

Lemma AE_not_generic (d : string) : "AE" <> d +:+ "--".
Proof.
  destruct d as [|a [|b [|c d]]]; simpl; discriminate.
Qed.

Lemma AE_not_in_generic (ds : list string) :
  py_in "AE" (map (fun d => d +:+ "--") ds) = false.
Proof.
  destruct (py_in "AE" (map (fun d => d +:+ "--") ds)) eqn:H; [|done].
  apply py_in_In, in_map_iff in H as [d [Hd _]].
  symmetry in Hd. by apply AE_not_generic in Hd.
Qed.

(** C5: a rule that includes only the generic entry [SUPP--], excludes
    nothing and has no split-dataset flag applies to the dataset domain
    [SUPPAE], whether or not the dataset is split, as soon as [SUPP] is a
    supplementary family and [SUPPAE] follows its naming rule; a rule that
    includes only [AE] does not apply to [SUPPAE]. *)
Theorem supp_family_pattern_gate (N : DomainNaming) (rule : Rule)
    (exclude : option (list string)) (is_split_domain : bool) :
  In "SUPP" (SUPPLEMENTARY_DOMAINS N) ->
  is_supp_domain N "SUPPAE" = true ->
  default [] exclude = [] ->
  (domains rule = Some {| Include := Some ["SUPP--"]; Exclude := exclude;
                           include_split_datasets := None |} ->
   rule_applies_to_domain N "SUPPAE" rule is_split_domain = true)
  /\
  (domains rule = Some {| Include := Some ["AE"]; Exclude := exclude;
                           include_split_datasets := None |} ->
   rule_applies_to_domain N "SUPPAE" rule is_split_domain = false).
Proof.
  intros Hsupp Hname Hex. split; intros Hd.
  - unfold rule_applies_to_domain. rewrite Hd. cbn [from_option id Include Exclude include_split_datasets].
    rewrite Hex. cbn [truthy_list].
    assert (Hgen : _domain_in_supp_domains N ["SUPP--"] = true).
    { unfold _domain_in_supp_domains. cbn [existsb]. rewrite orb_false_r.
      apply py_in_In, in_map_iff. by exists "SUPP". }
    rewrite Hname, Hgen. cbn.
    by destruct is_split_domain.
  - unfold rule_applies_to_domain. rewrite Hd. cbn [from_option id Include Exclude include_split_datasets].
    rewrite Hex. cbn [truthy_list].
    assert (Hgen : _domain_in_supp_domains N ["AE"] = false).
    { unfold _domain_in_supp_domains. cbn [existsb]. rewrite orb_false_r.
      apply AE_not_in_generic. }
    assert (Hap : matches_ap_naming_pattern N "SUPPAE" ["AE"] = false).
    { unfold matches_ap_naming_pattern. cbn [existsb]. rewrite orb_false_r.
      apply andb_false_intro2.
      exact (AE_not_in_generic [AP_DOMAIN N; APFA_DOMAIN N]). }
    rewrite Hgen, Hap, andb_false_r. cbn.
    by destruct is_split_domain.
Qed.

Lemma supp_family_pattern_gate_witness :
  In "SUPP" (SUPPLEMENTARY_DOMAINS spec_naming)
  /\ is_supp_domain spec_naming "SUPPAE" = true
  /\ rule_applies_to_domain spec_naming "SUPPAE"
       (rule_with_domains {| Include := Some ["SUPP--"]; Exclude := Some [];
                             include_split_datasets := None |}) false = true
  /\ rule_applies_to_domain spec_naming "SUPPAE"
       (rule_with_domains {| Include := Some ["AE"]; Exclude := Some [];
                             include_split_datasets := None |}) false = false.
Proof.
  split; [simpl; auto|]. split; [reflexivity|]. split.
  - apply (supp_family_pattern_gate spec_naming _ (Some []) false);
      [simpl; auto | reflexivity | reflexivity | reflexivity].
  - apply (supp_family_pattern_gate spec_naming _ (Some []) false);
      [simpl; auto | reflexivity | reflexivity | reflexivity].
Defined.

(** ** Class gate *)

Lemma class_fetches_app (a b : list Event) :
  class_fetches (a ++ b) = class_fetches a + class_fetches b.
Proof. unfold class_fetches. rewrite List.filter_app. apply List.length_app. Qed.

Lemma class_fetches_lookup (file_path : string) (l : list string) :
  class_fetches (class_lookup file_path l) = Nat.b2n (truthy_list l).
Proof. by destruct l. Qed.

(** C4, as the code has it: the class gate asks the data service for the
    dataset class once for the detectable included classes when there are
    any, and once more for the excluded classes when there are any; it
    always returns a verdict. *)
Theorem class_gate_fetches (E : Env) (rule : Rule) (file_path : string)
    (dsets : list Descriptor) (w : World) :
  let run := rule_applies_to_class E rule file_path dsets w in
  (exists verdict : bool, snd run = Ok verdict)
  /\ trace (fst run)
     = trace w ++ class_lookup file_path (detectable_included E rule)
               ++ class_lookup file_path (declared_excluded rule)
  /\ class_fetches (trace (fst run))
     = class_fetches (trace w)
       + Nat.b2n (truthy_list (detectable_included E rule))
       + Nat.b2n (truthy_list (declared_excluded rule)).
Proof.
  intros run.
  assert (Htr : (exists verdict : bool, snd run = Ok verdict)
                /\ trace (fst run)
                   = trace w ++ class_lookup file_path (detectable_included E rule)
                             ++ class_lookup file_path (declared_excluded rule)).
  { subst run. unfold rule_applies_to_class.
    fold (detectable_included E rule). fold (declared_excluded rule).
    destruct (detectable_included E rule) as [|i li];
      destruct (declared_excluded rule) as [|x lx];
      cbn; rewrite ?app_nil_r, <- ?app_assoc; split; eauto. }
  destruct Htr as [Hv Htr]. repeat split; [done | done |].
  rewrite Htr, !class_fetches_app, !class_fetches_lookup. lia.
Qed.

(** C4, as stated, fails: a rule that includes a detectable class and
    excludes another has the class fetched twice in one check. *)
Lemma class_fetched_twice :
  let rule := rule_with_classes {| cls_Include := Some ["Events"];
                                   cls_Exclude := Some ["Interventions"] |} in
  let run := rule_applies_to_class sample_env rule "/data/ae.xpt"
               sample_datasets empty_world in
  class_fetches (trace (fst run)) = 2%nat
  /\ class_fetches (trace (fst run)) <> 1%nat.
Proof. split; [reflexivity | discriminate]. Qed.

(** ** Operation executor *)

Lemma assoc_get_contains {A} (label : string) (cols : list (string * A)) (c : A) :
  assoc_get label cols = Some c -> py_in label (map fst cols) = true.
Proof.
  induction cols as [|[l c'] cols IH]; [discriminate|].
  unfold py_in in *. cbn [assoc_get map fst existsb].
  destruct (String.eqb_spec l label) as [->|Hne].
  - by rewrite String.eqb_refl.
  - intros H. rewrite (IH H). apply orb_true_r.
Qed.

Lemma positions_of_absent (key : Z) (ls : list Z) :
  ~ In key ls -> positions_of Z.eqb key ls = [].
Proof.
  intros Hnot. unfold positions_of.
  assert (H : forall idxs, List.filter
                (fun i => match ls !! i with
                          | Some l' => Z.eqb l' key
                          | None => false
                          end) idxs = []).
  { induction idxs as [|i idxs IH]; [done|]. cbn [List.filter].
    destruct (ls !! i) as [l'|] eqn:Hl; [|exact IH].
    destruct (Z.eqb_spec l' key) as [->|_]; [|exact IH].
    exfalso. apply Hnot. apply list_elem_of_In. by eapply list_elem_of_lookup_2. }
  apply H.
Qed.

(** C10: for a target domain that is not a relationship dataset and a
    dataset with a [DOMAIN] column, [is_current_domain] compares the
    element at index 0 of that column with the target.  When there is no
    such element (no row labelled 0 in an integer index, a zero-row
    dataset among them; no row at all under an index of strings) the
    check raises, and so does [_execute_operation] when the cache has no
    entry for the operation, leaving the world as it was. *)
Theorem is_current_domain_reads_first_row (E : Env) (operation_to_call : Capability)
    (p : OperationParams) (w : World) (col : list Cell) :
  is_relationship_dataset (domain p) = false ->
  assoc_get "DOMAIN" (columns (dataframe p)) = Some col ->
  is_current_domain (dataframe p) (domain p)
  = match series_getitem (dataframe p) col 0 with
    | Ok (EOne c) => Ok (CmpBool (Cell_eqb c (CStr (domain p))))
    | Ok (ESeveral cs) =>
        Ok (CmpSeries (map (fun c => Cell_eqb c (CStr (domain p))) cs))
    | Raise e => Raise e
    end
  /\ (forall ls, int_labels (dataframe p) = Some ls -> ~ In 0%Z ls ->
        series_getitem (dataframe p) col 0 = Raise (KeyError "0"))
  /\ (index (dataframe p) = RangeIndex -> nrows (dataframe p) = 0%nat ->
        series_getitem (dataframe p) col 0 = Raise (KeyError "0"))
  /\ (int_labels (dataframe p) = None -> col = [] ->
        series_getitem (dataframe p) col 0
        = Raise (IndexError "index out of bounds"))
  /\ (forall e, series_getitem (dataframe p) col 0 = Raise e ->
        cache w !! cache_key_of E p w = None ->
        is_current_domain (dataframe p) (domain p) = Raise e
        /\ _execute_operation E operation_to_call p w = (w, Raise e)).
Proof.
  intros Hrel Hcol.
  assert (Hcur : is_current_domain (dataframe p) (domain p)
                 = match series_getitem (dataframe p) col 0 with
                   | Ok (EOne c) => Ok (CmpBool (Cell_eqb c (CStr (domain p))))
                   | Ok (ESeveral cs) =>
                       Ok (CmpSeries
                             (map (fun c => Cell_eqb c (CStr (domain p))) cs))
                   | Raise e => Raise e
                   end).
  { unfold is_current_domain, df_contains, df_column.
    rewrite Hrel, (assoc_get_contains _ _ _ Hcol), Hcol. cbn.
    by destruct (series_getitem (dataframe p) col 0) as [[c|cs]|e]. }
  assert (Habsent : forall ls, int_labels (dataframe p) = Some ls ->
                      ~ In 0%Z ls ->
                      series_getitem (dataframe p) col 0 = Raise (KeyError "0")).
  { intros ls Hls Hnot. unfold series_getitem. rewrite Hls.
    rewrite (positions_of_absent _ _ Hnot). reflexivity. }
  split; [exact Hcur|]. split; [exact Habsent|]. split; [|split].
  - intros Hidx Hn. apply (Habsent []); [|by intros []].
    unfold int_labels. by rewrite Hidx, Hn.
  - intros Hls ->. unfold series_getitem. by rewrite Hls.
  - intros e He Hmiss. rewrite He in Hcur. split; [exact Hcur|].
    unfold _execute_operation, bind, list_read, cache_get, lift. cbn.
    unfold cache_key_of in Hmiss. rewrite Hmiss. cbn.
    by rewrite Hcur.
Qed.

Lemma is_current_domain_reads_first_row_witness :
  let p := {| operation_id := "$min_aeseq"; operation_name := "min";
              dataframe := filtered_ae_frame; target := Some "AESEQ";
              domain := "AE"; dataset_path := "/data/ae.xpt";
              directory_path := "/data"; datasets := sample_datasets;
              grouping := 0%nat; standard := "sdtmig";
              standard_version := "3-4"; meddra_path := None;
              whodrug_path := None |} in
  is_relationship_dataset "AE" = false
  /\ is_current_domain ae_frame "AE" = Ok (CmpBool true)
  /\ is_current_domain filtered_ae_frame "AE" = Raise (KeyError "0")
  /\ is_current_domain empty_ae_frame "AE" = Raise (KeyError "0")
  /\ _execute_operation sample_env (fun _ _ => Ok (RScalar (CInt 0))) p
       empty_world = (empty_world, Raise (KeyError "0")).
Proof.
  intros p. split; [reflexivity|]. split; [reflexivity|].
  destruct (is_current_domain_reads_first_row sample_env
              (fun _ _ => Ok (RScalar (CInt 0))) p empty_world
              [CStr "AE"; CStr "AE"])
    as [_ [Habsent [_ [_ Hexec]]]]; [reflexivity | reflexivity |].
  assert (Hraise : series_getitem filtered_ae_frame [CStr "AE"; CStr "AE"] 0
                   = Raise (KeyError "0")).
  { apply (Habsent [1; 2]%Z); [reflexivity|].
    intros [H|[H|[]]]; discriminate. }
  destruct (Hexec _ Hraise eq_refl) as [Hcur Hrun].
  split; [exact Hcur|]. split; [reflexivity | exact Hrun].
Defined.

Lemma bind_ok {A B} (m : M A) (k : A -> M B) (w w' : World) (a : A) :
  m w = (w', Ok a) -> bind m k w = k a w'.
Proof. unfold bind. by intros ->. Qed.

Lemma bind_raise {A B} (m : M A) (k : A -> M B) (w w' : World) (e : Exn) :
  m w = (w', Raise e) -> bind m k w = (w', Raise e).
Proof. unfold bind. by intros ->. Qed.



(** With grouping columns, the result is never merged: whatever the
    operation returned, the grouped branch raises. *)
Lemma grouped_result_never_merged (result : Result) (p : OperationParams)
    (w : World) :
  truthy_list (default [] (heap w !! grouping p)) = true ->
  exists e, snd (_handle_operation_result result p w) = Raise e.
Proof.
  intros Hg. unfold _handle_operation_result, bind, list_read. cbn.
  rewrite Hg. unfold lift.
  destruct result as [c|cells|df]; cbn; eauto.
Qed.

(** C1 at a sample input: the working dataset has three rows and the
    operation is grouped by [USUBJID]; the executor raises instead of
    returning the dataset with the new column, although the left join of
    the renamed result on the grouping columns has three rows. *)
Theorem grouped_merge_raises :
  snd (run_on_ae [max_by_subject] grouped_world) = Raise (KeyError "None")
  /\ (exists renamed selected merged,
        sample_operations "max" = Some (fun _ _ => Ok (RFrame renamed))
        /\ df_getitem (df_rename renamed (Some "AESEQ") "$max_aeseq")
             (PyStrList ["USUBJID"; "$max_aeseq"]) = Ok selected
        /\ df_merge_left ae_frame selected ["USUBJID"] = Ok merged
        /\ nrows merged = nrows ae_frame).
Proof.
  split; [reflexivity|].
  eexists _, _, _. repeat split.
Qed.

(** C2 at a sample input: two operations with one signature whose result
    is the scalar 0 call the operation twice, the cached 0 testing false;
    when the result is a column, the second operation raises on the test
    of the cached result. *)
Theorem falsy_cached_result_recomputed :
  operation_calls
    (trace (fst (run_on_ae [min_aeseq "$min1"; min_aeseq "$min2"] empty_world)))
  = 2%nat
  /\ snd (run_on_ae [distinct_aeseq "$d1"; distinct_aeseq "$d2"] empty_world)
     = Raise (ValueError "The truth value of a Series is ambiguous").
Proof. split; reflexivity. Qed.

(** C3 at a sample input: an ungrouped operation on another domain, not
    in the cache, returns that domain's dataset with the new column, not
    the working dataset with it; served from the cache, the same operation
    returns the working dataset with the new column. *)
Theorem other_domain_replaces_working_dataset :
  let cached :=
    {| cache := {[ cache_key_of sample_env
                     (params_of sample_env dm_record_count ae_frame "AE"
                        sample_datasets "/data/ae.xpt" "sdtmig" "3-4"
                        None None 0%nat) empty_world
                   := RScalar (CInt 2) ]};
       heap := []; trace := [] |} in
  snd (run_on_ae [dm_record_count] empty_world)
  = df_setitem dm_frame "$dm_count" (RScalar (CInt 2))
  /\ snd (run_on_ae [dm_record_count] empty_world)
     <> df_setitem ae_frame "$dm_count" (RScalar (CInt 2))
  /\ snd (run_on_ae [dm_record_count] cached)
     = df_setitem ae_frame "$dm_count" (RScalar (CInt 2)).
Proof.
  intros cached. split; [reflexivity|]. split; [discriminate|].
  vm_compute. reflexivity.
Qed.

Lemma perform_operations_app (E : Env) (pre rest : list Operation)
    (dataset : DataFrame) (dom : string) (dsets : list Descriptor)
    (path std std_version : string) (meddra whodrug : option string)
    (w : World) :
  perform_operations E dataset dom dsets path std std_version meddra whodrug
    (pre ++ rest) w
  = bind (perform_operations E dataset dom dsets path std std_version meddra
            whodrug pre)
         (fun ds => perform_operations E ds dom dsets path std std_version
                      meddra whodrug rest) w.
Proof.
  revert dataset w. induction pre as [|o pre IH]; intros dataset w; [done|].
  cbn [app perform_operations]. unfold bind.
  destruct (perform_operation E dataset dom dsets path std std_version meddra
              whodrug o w) as [w' [ds|e]]; [|done].
  rewrite IH. reflexivity.
Qed.




(** C9, as stated, fails: a rule whose grouped operation has the signature
    of one computed before finds the frame in the cache, the truth test of
    the frame raises, and the rule's own grouping list is as it was; so is
    the list of a rule whose grouped operation returns a scalar. *)
Lemma cached_frame_leaves_group_list :
  let two_lists := {| cache := ∅; heap := [["USUBJID"]; ["USUBJID"]];
                      trace := [] |} in
  let again := {| op_id := "$max_again"; op_operator := "max";
                  op_name := Some "AESEQ"; op_domain := None;
                  op_group := Some 1%nat |} in
  let first := run_on_ae [max_by_subject] two_lists in
  let second := run_on_ae [again] (fst first) in
  let scalar := {| op_id := "$min_by_subject"; op_operator := "min";
                   op_name := Some "AESEQ"; op_domain := None;
                   op_group := Some 0%nat |} in
  let third := run_on_ae [scalar] grouped_world in
  heap (fst first) !! 1%nat = Some ["USUBJID"]
  /\ heap (fst second) !! 1%nat = Some ["USUBJID"]
  /\ snd second
     = Raise (ValueError "The truth value of a DataFrame is ambiguous")
  /\ heap (fst third) !! 0%nat = heap grouped_world !! 0%nat
  /\ snd third = Raise (AttributeError "rename").
Proof. repeat split; vm_compute; reflexivity. Qed.

(** ** Condition tree rewriter *)










(** C6, as stated, fails: the loops run over the conditions of a branch,
    not over the leaves of the tree.  In a tree with a nested composite
    the leaves below the composite are copied with the targets they had;
    were each leaf replaced by one copy per target, the targets would
    alternate. *)
Lemma nested_leaves_keep_their_targets :
  let rule' := create_list_of_conditions_for_each_target
                 (rule_with_conditions nested_tree) ["A"; "B"] in
  map (fun c => c_value c ≫= v_target)
      (values (conditions (rule_with_conditions nested_tree)))
  = [Some "USUBJID"; Some "--SEQ"; Some "IDVAR"]
  /\ map (fun c => c_value c ≫= v_target) (values (conditions rule'))
     = [Some "A"; Some "B";
        Some "--SEQ"; Some "IDVAR"; Some "--SEQ"; Some "IDVAR"]
  /\ map (fun c => c_value c ≫= v_target) (values (conditions rule'))
     <> [Some "A"; Some "B"; Some "A"; Some "B"; Some "A"; Some "B"].
Proof. split; [reflexivity|]. split; [reflexivity | discriminate]. Qed.

Lemma leaves_are_leaves (c : Condition) :
  Forall (fun x => is_leaf x = true) (leaves c).
Proof.
  induction c as [n o v branches IH] using Condition_nested_ind.
  destruct branches as [|b bs]; [by repeat constructor|].
  cbn [leaves]. apply List.Forall_forall. intros x Hx.
  apply in_flat_map in Hx as [b' [Hb' Hx]].
  apply in_flat_map in Hx as [c' [Hc' Hx]].
  rewrite List.Forall_forall in IH. specialize (IH b' Hb').
  rewrite List.Forall_forall in IH. specialize (IH c' Hc').
  rewrite List.Forall_forall in IH. by apply IH.
Qed.

Lemma values_are_leaves (t : ConditionInterface) :
  Forall (fun x => is_leaf x = true) (values t).
Proof.
  unfold values. apply List.Forall_forall. intros x Hx.
  apply in_flat_map in Hx as [b [_ Hx]].
  apply in_flat_map in Hx as [c [_ Hx]].
  pose proof (leaves_are_leaves c) as H.
  rewrite List.Forall_forall in H. by apply H.
Qed.

Section Refill.
Context {A L : Type}.
Variable f : A -> list L -> A * list L.
Variable out : A -> list L.
Variable ok : L -> Prop.

Lemma thread_refills (l : list A) :
  Forall (refills f out ok) l ->
  forall s : list L,
    length (flat_map out l) <= length s ->
    Forall ok (take (length (flat_map out l)) s) ->
    flat_map out (fst (thread f l s)) = take (length (flat_map out l)) s
    /\ snd (thread f l s) = drop (length (flat_map out l)) s.
Proof.
  induction 1 as [|a l Ha _ IH]; intros s Hlen Hok.
  - cbn. by rewrite take_0, drop_0.
  - cbn [flat_map] in *. rewrite length_app in *.
    rewrite <- take_take_drop in Hok. apply Forall_app in Hok as [Hok1 Hok2].
    destruct (Ha s) as [Hout Hrest]; [lia | done |].
    cbn [thread]. destruct (f a s) as [a' s'] eqn:Hf. cbn [fst snd] in *.
    destruct (IH s') as [Hout' Hrest'].
    { subst s'. rewrite length_drop. lia. }
    { by subst s'. }
    destruct (thread f l s') as [l'' s''] eqn:Ht. cbn [fst snd flat_map] in *.
    rewrite Hout, Hout', Hrest', Hrest, drop_drop.
    by rewrite take_take_drop.
Qed.

Lemma thread_length (l : list A) (s : list L) :
  length (fst (thread f l s)) = length l.
Proof.
  revert s. induction l as [|a l IH]; intros s; [done|].
  cbn [thread]. destruct (f a s) as [a' s'].
  specialize (IH s'). destruct (thread f l s') as [l'' s''].
  cbn in *. by rewrite IH.
Qed.
End Refill.

Lemma refill_branch_refills (b : AllowedConditionsKeys * list Condition) :
  Forall (refills refill leaves is_leaf_prop) (snd b) ->
  refills refill_branch (fun b => flat_map leaves (snd b)) is_leaf_prop b.
Proof.
  intros Hb s Hlen Hok. unfold refill_branch.
  destruct (thread_refills refill leaves is_leaf_prop (snd b) Hb s Hlen Hok)
    as [Hout Hrest].
  by destruct (thread refill (snd b) s) as [cs s'].
Qed.

Lemma refill_refills (c : Condition) : refills refill leaves is_leaf_prop c.
Proof.
  induction c as [n o v branches IH] using Condition_nested_ind.
  intros s Hlen Hok. destruct branches as [|b bs].
  - cbn in *. destruct s as [|c' rest]; [cbn in Hlen; lia|].
    cbn in *. rewrite take_0 in *. apply Forall_cons in Hok as [Hc' _].
    split; [|by rewrite drop_0].
    destruct c' as [n' o' v' [|? ?]]; [done | discriminate].
  - assert (Hbs : Forall (refills refill_branch
                            (fun b => flat_map leaves (snd b)) is_leaf_prop)
                         (b :: bs)).
    { eapply Forall_impl; [exact IH|]. intros b'. apply refill_branch_refills. }
    change (leaves (mkCondition n o v (b :: bs)))
      with (flat_map (fun b => flat_map leaves (snd b)) (b :: bs)) in *.
    destruct (thread_refills _ _ _ _ Hbs s Hlen Hok) as [Hout Hrest].
    change (refill (mkCondition n o v (b :: bs)) s)
      with (let (branches', rest) := thread refill_branch (b :: bs) s in
            (mkCondition n o v branches', rest)).
    pose proof (thread_length refill_branch (b :: bs) s) as Hl.
    destruct (thread refill_branch (b :: bs) s) as [branches' rest].
    cbn [fst snd] in *. split; [|done].
    destruct branches' as [|b' bs']; [discriminate Hl|]. exact Hout.
Qed.

(** Reading back the leaves written into a tree gives what was written. *)
Lemma values_set_values (t : ConditionInterface) (ls : list Condition) :
  length ls = length (values t) ->
  Forall is_leaf_prop ls ->
  values (set_values t ls) = ls.
Proof.
  intros Hlen Hok. unfold values, set_values.
  assert (Ht : Forall (refills refill_branch
                         (fun b => flat_map leaves (snd b)) is_leaf_prop) t).
  { apply List.Forall_forall. intros b _. apply refill_branch_refills.
    apply List.Forall_forall. intros c _. apply refill_refills. }
  destruct (thread_refills _ _ _ _ Ht ls) as [Hout _].
  - unfold values in Hlen. lia.
  - by apply Forall_take.
  - rewrite Hout. apply take_ge. unfold values in Hlen. lia.
Qed.

Section Loop.
Variable body : Condition -> Res Condition.

Lemma for_each_value_length (ls : list Condition) :
  length (fst (for_each_value body ls)) = length ls.
Proof.
  induction ls as [|c rest IH]; [done|].
  cbn [for_each_value]. destruct (body c) as [c'|e]; [|done].
  destruct (for_each_value body rest) as [rest' r]. cbn in *. by rewrite IH.
Qed.

Lemma for_each_value_leaves (ls : list Condition) :
  (forall c c', body c = Ok c' -> is_leaf c' = is_leaf c) ->
  Forall is_leaf_prop ls ->
  Forall is_leaf_prop (fst (for_each_value body ls)).
Proof.
  intros Hbody. induction 1 as [|c rest Hc Hrest IH]; [constructor|].
  cbn [for_each_value]. destruct (body c) as [c'|e] eqn:Hb.
  - destruct (for_each_value body rest) as [rest' r]. cbn in *.
    constructor; [|done]. unfold is_leaf_prop. by rewrite (Hbody _ _ Hb).
  - by constructor.
Qed.

(** Running the loop again over what it left writes nothing new and
    ends the same way. *)
Lemma for_each_value_again (ls : list Condition) :
  (forall c c', body c = Ok c' -> body c' = Ok c') ->
  for_each_value body (fst (for_each_value body ls))
  = for_each_value body ls.
Proof.
  intros Hbody. induction ls as [|c rest IH]; [done|].
  cbn [for_each_value]. destruct (body c) as [c'|e] eqn:Hb.
  - destruct (for_each_value body rest) as [rest' r]. cbn [fst] in *.
    cbn [for_each_value]. by rewrite (Hbody _ _ Hb), IH.
  - cbn [fst for_each_value]. by rewrite Hb.
Qed.

Lemma for_each_value_ok (ls : list Condition) :
  snd (for_each_value body ls) = Ok tt ->
  Forall2 (fun c c' => body c = Ok c') ls (fst (for_each_value body ls)).
Proof.
  induction ls as [|c rest IH]; [constructor|].
  cbn [for_each_value]. destruct (body c) as [c'|e] eqn:Hb; [|done].
  destruct (for_each_value body rest) as [rest' r]. cbn in *.
  intros Hr. constructor; [done | by apply IH].
Qed.
End Loop.

Lemma add_comparator_body_again (comparator : option (gmap string string))
    (target_prefix : option string) (c c' : Condition) :
  add_comparator_body comparator target_prefix c = Ok c' ->
  add_comparator_body comparator target_prefix c' = Ok c'.
Proof.
  unfold add_comparator_body, value_target.
  destruct c as [n o [v|] b]; [|done]. cbn [c_value].
  match goal with
  | |- match ?x with _ => _ end = _ -> _ => destruct x as [to_add|e] eqn:Hadd
  end; [|done].
  destruct (truthy_opt_str to_add) eqn:Ht; intros [= <-];
    cbn [c_value set_value v_target set_comparator];
    by rewrite Hadd, Ht.
Qed.

Lemma add_comparator_body_leaf (comparator : option (gmap string string))
    (target_prefix : option string) (c c' : Condition) :
  add_comparator_body comparator target_prefix c = Ok c' ->
  is_leaf c' = is_leaf c.
Proof.
  unfold add_comparator_body.
  destruct c as [n o [v|] b]; [|done]. cbn [c_value].
  repeat match goal with
         | |- context [match ?x with _ => _ end] => destruct x
         end; by intros [= <-].
Qed.

(** C8: adding the comparator with a prefix a second time leaves every
    leaf as the first call left it and ends as the first call ended; when
    the first call returns with a non-empty prefix, every leaf has the
    comparator made of the prefix and its own target. *)
Theorem add_comparator_prefix_idempotent (rule : Rule) (prefix : string) :
  let once := add_comparator_to_rule_conditions rule None (Some prefix) in
  let twice :=
    add_comparator_to_rule_conditions (fst once) None (Some prefix) in
  values (conditions (fst twice)) = values (conditions (fst once))
  /\ snd twice = snd once
  /\ (snd once = Ok tt -> prefix <> "" ->
      Forall2 (fun c c1 =>
                 exists v t, c_value c = Some v /\ v_target v = Some t
                             /\ c_value c1
                                = Some (set_comparator v (prefix +:+ t)))
              (values (conditions rule)) (values (conditions (fst once)))).
Proof.
  intros once twice.
  set (body := add_comparator_body None (Some prefix)) in *.
  set (ls1 := fst (for_each_value body (values (conditions rule)))).
  assert (Hv1 : values (conditions (fst once)) = ls1).
  { subst once. unfold add_comparator_to_rule_conditions. fold body.
    destruct (for_each_value body (values (conditions rule))) as [ls r] eqn:Hl.
    cbn [fst conditions set_conditions]. subst ls1; cbn [fst].
    apply values_set_values.
    - pose proof (for_each_value_length body (values (conditions rule))) as H.
      by rewrite Hl in H.
    - pose proof (for_each_value_leaves body (values (conditions rule))
                    (add_comparator_body_leaf None (Some prefix))
                    (values_are_leaves _)) as H.
      by rewrite Hl in H. }
  assert (Hr1 : snd once = snd (for_each_value body (values (conditions rule)))).
  { subst once. unfold add_comparator_to_rule_conditions. fold body.
    by destruct (for_each_value body (values (conditions rule))). }
  assert (Hagain : for_each_value body ls1
                   = for_each_value body (values (conditions rule))).
  { apply for_each_value_again, add_comparator_body_again. }
  assert (Htw : twice
                = (set_conditions (fst once)
                     (set_values (conditions (fst once)) ls1), snd once)).
  { subst twice. unfold add_comparator_to_rule_conditions at 1. fold body.
    rewrite Hv1, Hagain, Hr1. subst ls1.
    by destruct (for_each_value body (values (conditions rule))). }
  assert (Hv2 : values (conditions (fst twice)) = ls1
                /\ snd twice = snd once).
  { rewrite Htw. cbn [fst snd conditions set_conditions]. split; [|done].
    apply values_set_values.
    - by rewrite Hv1.
    - subst ls1.
      apply (for_each_value_leaves body (values (conditions rule))
               (add_comparator_body_leaf None (Some prefix))
               (values_are_leaves _)). }
  destruct Hv2 as [Hv2 Hr2]. split; [by rewrite Hv1, Hv2|]. split; [done|].
  intros Hok Hpre. rewrite Hv1. rewrite Hr1 in Hok.
  eapply Forall2_impl; [apply (for_each_value_ok body _ Hok)|].
  intros c c1. subst body. unfold add_comparator_body, value_target.
  destruct c as [n o [v|] b]; [|done]. cbn [c_value truthy_dict].
  assert (Hp : truthy_opt_str (Some prefix) = true) by (by destruct prefix).
  rewrite Hp. destruct (v_target v) as [t|] eqn:Ht; [|done].
  cbn [from_option id].
  assert (Hp' : truthy_opt_str (Some (prefix +:+ t)) = true)
    by (by destruct prefix).
  rewrite Hp'. intros [= <-]. by exists v, t.
Qed.

Lemma add_comparator_prefix_idempotent_witness :
  let rule := rule_with_conditions nested_tree in
  let once := add_comparator_to_rule_conditions rule None (Some "parent_") in
  let twice :=
    add_comparator_to_rule_conditions (fst once) None (Some "parent_") in
  snd once = Ok tt
  /\ map (fun c => c_value c ≫= v_comparator) (values (conditions (fst once)))
     = [Some "parent_USUBJID"; Some "parent_--SEQ"; Some "parent_IDVAR"]
  /\ values (conditions (fst twice)) = values (conditions (fst once))
  /\ Forall2 (fun c c1 =>
                exists v t, c_value c = Some v /\ v_target v = Some t
                            /\ c_value c1
                               = Some (set_comparator v ("parent_" +:+ t)))
             (values (conditions rule)) (values (conditions (fst once))).
Proof.
  intros rule once twice.
  destruct (add_comparator_prefix_idempotent rule "parent_") as [Hv [_ Hc]].
  split; [reflexivity|]. split; [reflexivity|]. split; [exact Hv|].
  apply Hc; [reflexivity | discriminate].
Defined.

Lemma operator_related_pattern_cases (operator : option string) (t : string) :
  get_operator_related_pattern operator t
  = if is_additional_columns_operator operator
    then Some (additional_columns_pattern t) else None.
Proof.
  unfold get_operator_related_pattern, is_additional_columns_operator, py_in.
  destruct operator as [op|]; [|done]. cbn [assoc_get existsb].
  rewrite (String.eqb_sym op "additional_columns_empty"),
          (String.eqb_sym op "additional_columns_not_empty").
  destruct (String.eqb "additional_columns_empty" op); [done|].
  by destruct (String.eqb "additional_columns_not_empty" op).
Qed.

Lemma filter_matching_elements (pattern : string) (column_names : list string) :
  is_Some (re_compile pattern) ->
  exists matching,
    filter_matching pattern column_names = Ok matching
    /\ forall x, In x matching
                 <-> In x column_names /\ re_match pattern x = Ok true.
Proof.
  intros [r Hr]. induction column_names as [|name rest [matching [Hm Hin]]].
  - exists []. split; [done|]. intros x. cbn. tauto.
  - cbn [filter_matching]. rewrite Hm. unfold re_match in *. rewrite Hr in *.
    destruct (match_items (re_eol r) (re_items r) (list_ascii_of_string name))
      eqn:Hb.
    + exists (name :: matching). split; [done|]. intros x. cbn [In].
      rewrite Hin. split.
      * intros [<-|[H1 H2]]; [by rewrite Hb; auto | auto].
      * intros [[<-|H1] H2]; auto.
    + exists matching. split; [done|]. intros x. cbn [In].
      rewrite Hin. split.
      * intros [H1 H2]; auto.
      * intros [[<-|H1] H2]; [by rewrite Hb in H2 | auto].
Qed.




(** * Further properties *)

(** ** Domain gate *)

(** X1: a rule never applies to a dataset whose domain is listed in
    [Exclude], or when [Exclude] lists [All]: neither the [Include] list
    nor the split-dataset flag brings it back. *)
Theorem excluded_domain_never_applies (N : DomainNaming) (rule : Rule)
    (dataset_domain : string) (is_split_domain : bool) :
  In dataset_domain (default [] (Exclude (domains_or_empty rule)))
  \/ In "All" (default [] (Exclude (domains_or_empty rule))) ->
  rule_applies_to_domain N dataset_domain rule is_split_domain = false.
Proof.
  intros Hex. unfold rule_applies_to_domain. fold (domains_or_empty rule).
  set (excl := default [] (Exclude (domains_or_empty rule))) in *.
  assert (Hin : py_in dataset_domain excl || py_in "All" excl = true).
  { apply orb_true_iff. destruct Hex as [H|H]; [left|right]; by apply py_in_In. }
  assert (Hne : truthy_list excl = true).
  { destruct excl; [|done]. by destruct Hex. }
  cbv zeta. rewrite Hne, Hin.
  match goal with
  | |- context [if ?b then true else true] =>
      replace (if b then true else true) with true by (by destruct b)
  end.
  cbn. rewrite andb_false_r.
  match goal with
  | |- context [if ?b then true else true] =>
      replace (if b then true else true) with true by (by destruct b)
  end.
  apply andb_false_r.
Qed.

Lemma excluded_domain_never_applies_witness :
  rule_applies_to_domain spec_naming "AE"
    (rule_with_domains {| Include := Some ["AE"]; Exclude := Some ["AE"];
                          include_split_datasets := Some true |}) true = false
  /\ rule_applies_to_domain spec_naming "DM"
       (rule_with_domains {| Include := Some ["All"]; Exclude := Some ["All"];
                             include_split_datasets := None |}) false = false.
Proof.
  split.
  - apply excluded_domain_never_applies. left. simpl. auto.
  - apply excluded_domain_never_applies. right. simpl. auto.
Defined.

(** X2: without [Include] and [Exclude] entries the split-dataset flag
    alone decides: no flag, every dataset; flag set, the split datasets
    only; flag cleared, the datasets that are not split. *)
Theorem gate_without_lists_follows_split_flag (N : DomainNaming) (rule : Rule)
    (dataset_domain : string) (is_split_domain : bool) :
  default [] (Include (domains_or_empty rule)) = [] ->
  default [] (Exclude (domains_or_empty rule)) = [] ->
  rule_applies_to_domain N dataset_domain rule is_split_domain
  = match include_split_datasets (domains_or_empty rule) with
    | None => true
    | Some true => is_split_domain
    | Some false => negb is_split_domain
    end.
Proof.
  intros Hin Hex. unfold rule_applies_to_domain. fold (domains_or_empty rule).
  cbv zeta. rewrite Hin, Hex. cbn [truthy_list].
  destruct (include_split_datasets (domains_or_empty rule)) as [[|]|];
    by destruct is_split_domain.
Qed.

Lemma gate_without_lists_follows_split_flag_witness :
  rule_applies_to_domain spec_naming "AE" (rule_with_conditions []) false = true
  /\ rule_applies_to_domain spec_naming "AE"
       (rule_with_domains {| Include := Some []; Exclude := None;
                             include_split_datasets := Some true |}) false
     = false.
Proof.
  split.
  - apply (gate_without_lists_follows_split_flag spec_naming
             (rule_with_conditions []) "AE" false); reflexivity.
  - apply (gate_without_lists_follows_split_flag spec_naming
             (rule_with_domains {| Include := Some []; Exclude := None;
                                   include_split_datasets := Some true |})
             "AE" false); reflexivity.
Defined.

(** X3: the split-dataset flag overrides the lists.  Set, it makes the
    rule apply to every split dataset that is not excluded, whatever
    [Include] lists; cleared, it keeps the rule from every split dataset. *)
Theorem split_flag_overrides_lists (N : DomainNaming) (rule : Rule)
    (dataset_domain : string) :
  (include_split_datasets (domains_or_empty rule) = Some true ->
   default [] (Exclude (domains_or_empty rule)) = [] ->
   rule_applies_to_domain N dataset_domain rule true = true)
  /\ (include_split_datasets (domains_or_empty rule) = Some false ->
      rule_applies_to_domain N dataset_domain rule true = false).
Proof.
  split.
  - intros Hflag Hex. unfold rule_applies_to_domain.
    fold (domains_or_empty rule). cbv zeta. rewrite Hflag, Hex. reflexivity.
  - intros Hflag. unfold rule_applies_to_domain.
    fold (domains_or_empty rule). cbv zeta. rewrite Hflag.
    cbn. apply andb_false_r.
Qed.

Lemma split_flag_overrides_lists_witness :
  rule_applies_to_domain spec_naming "DM"
    (rule_with_domains {| Include := Some ["AE"]; Exclude := None;
                          include_split_datasets := Some true |}) true = true
  /\ rule_applies_to_domain spec_naming "AE"
       (rule_with_domains {| Include := Some ["AE"]; Exclude := None;
                             include_split_datasets := Some false |}) true
     = false.
Proof.
  split.
  - apply (proj1 (split_flag_overrides_lists spec_naming _ "DM"));
      reflexivity.
  - apply (proj2 (split_flag_overrides_lists spec_naming _ "AE"));
      reflexivity.
Defined.

(** X4: for a dataset domain that belongs to no family, a non-empty
    [Include] list, no exclusion and no flag, the rule applies exactly
    when the domain or [All] is listed. *)
Theorem plain_domain_needs_verbatim_entry (N : DomainNaming) (rule : Rule)
    (dataset_domain : string) (is_split_domain : bool) :
  is_supp_domain N dataset_domain = false ->
  is_ap_domain N dataset_domain = false ->
  default [] (Include (domains_or_empty rule)) <> [] ->
  default [] (Exclude (domains_or_empty rule)) = [] ->
  include_split_datasets (domains_or_empty rule) = None ->
  rule_applies_to_domain N dataset_domain rule is_split_domain
  = py_in dataset_domain (default [] (Include (domains_or_empty rule)))
    || py_in "All" (default [] (Include (domains_or_empty rule))).
Proof.
  intros Hsupp Hap Hin Hex Hflag. unfold rule_applies_to_domain.
  fold (domains_or_empty rule). cbv zeta.
  set (incl := default [] (Include (domains_or_empty rule))) in *.
  rewrite Hex, Hflag, Hsupp.
  assert (Hm : matches_ap_naming_pattern N dataset_domain incl = false).
  { unfold matches_ap_naming_pattern. rewrite Hap.
    clear. by induction incl. }
  rewrite Hm. destruct incl as [|i incl]; [done|]. cbn [truthy_list].
  destruct (py_in dataset_domain (i :: incl)), (py_in "All" (i :: incl));
    reflexivity.
Qed.

Lemma plain_domain_needs_verbatim_entry_witness :
  rule_applies_to_domain spec_naming "AE"
    (rule_with_domains {| Include := Some ["AE"]; Exclude := None;
                          include_split_datasets := None |}) false = true
  /\ rule_applies_to_domain spec_naming "CM"
       (rule_with_domains {| Include := Some ["AE"]; Exclude := None;
                             include_split_datasets := None |}) false = false.
Proof.
  split.
  - rewrite (plain_domain_needs_verbatim_entry spec_naming _ "AE" false);
      [reflexivity | reflexivity | reflexivity | discriminate | reflexivity
      | reflexivity].
  - rewrite (plain_domain_needs_verbatim_entry spec_naming _ "CM" false);
      [reflexivity | reflexivity | reflexivity | discriminate | reflexivity
      | reflexivity].
Defined.

(** ** Class gate and suitability *)

(** The class gate in one equation: the calls it makes and its verdict. *)
Lemma class_gate_run (E : Env) (rule : Rule) (file_path : string)
    (dsets : list Descriptor) (w : World) :
  rule_applies_to_class E rule file_path dsets w
  = ({| cache := cache w; heap := heap w;
        trace := trace w
                 ++ class_lookup file_path (detectable_included E rule)
                 ++ class_lookup file_path (declared_excluded rule) |},
     Ok (class_verdict (detectable_included E rule) (declared_excluded rule)
           (class_of E file_path dsets))).
Proof.
  unfold rule_applies_to_class, class_verdict, class_of.
  fold (detectable_included E rule). fold (declared_excluded rule).
  destruct w as [c h t].
  destruct (detectable_included E rule) as [|i li];
    destruct (declared_excluded rule) as [|x lx];
    cbn; rewrite ?app_nil_r, <- ?app_assoc; cbn;
    repeat match goal with
           | |- context [if ?b then false else true] =>
               replace (if b then false else true) with (negb b)
                 by (by destruct b)
           | |- context [if ?b then true else false] =>
               replace (if b then true else false) with b by (by destruct b)
           end;
    rewrite ?andb_true_r, ?negb_andb, ?negb_involutive; reflexivity.
Qed.

(** X5: included classes the engine cannot detect do not block a rule and
    cost no call to the data service: when no included class is
    detectable and nothing is excluded, the rule applies and the world is
    as it was. *)
Theorem undetectable_classes_never_block (E : Env) (rule : Rule)
    (file_path : string) (dsets : list Descriptor) (w : World) :
  (forall c, In c (default [] (cls_Include
                      (default {| cls_Include := None; cls_Exclude := None |}
                               (classes rule)))) ->
             ~ In c (DETECTABLE_CLASSES E)) ->
  declared_excluded rule = [] ->
  rule_applies_to_class E rule file_path dsets w = (w, Ok true).
Proof.
  intros Hund Hex. rewrite class_gate_run, Hex.
  assert (Hinc : detectable_included E rule = []).
  { unfold detectable_included.
    set (l := default [] _) in *. clearbody l.
    induction l as [|c l IH]; [done|]. cbn [List.filter].
    destruct (py_in c (DETECTABLE_CLASSES E)) eqn:Hc.
    - apply py_in_In in Hc. exfalso. apply (Hund c); [by left | done].
    - apply IH. intros c' Hc'. apply Hund. by right. }
  rewrite Hinc. cbn. rewrite app_nil_r. by destruct w.
Qed.

Lemma undetectable_classes_never_block_witness :
  rule_applies_to_class sample_env
    (rule_with_classes {| cls_Include := Some ["Special Purpose"];
                          cls_Exclude := None |})
    "/data/ae.xpt" sample_datasets empty_world
  = (empty_world, Ok true).
Proof.
  apply undetectable_classes_never_block; [|reflexivity].
  intros c [<-|[]] [H|[H|[]]]; discriminate.
Defined.

(** X6: a dataset whose class the data service cannot tell is never
    excluded, whatever [Exclude] lists, and is included only when no
    detectable class is required or [All] is among them. *)
Theorem undetermined_class_is_never_excluded (E : Env) (rule : Rule)
    (file_path : string) (dsets : list Descriptor) (w : World) :
  class_of E file_path dsets = None ->
  snd (rule_applies_to_class E rule file_path dsets w)
  = Ok (negb (truthy_list (detectable_included E rule))
        || py_in "All" (detectable_included E rule)).
Proof.
  intros Hc. rewrite class_gate_run, Hc. cbn [snd].
  unfold class_verdict, class_in.
  rewrite orb_false_r, andb_false_r. cbn [negb]. by rewrite andb_true_r.
Qed.

Lemma undetermined_class_is_never_excluded_witness :
  snd (rule_applies_to_class classless_env
         (rule_with_classes {| cls_Include := None;
                               cls_Exclude := Some ["Events"; "All"] |})
         "/data/ae.xpt" sample_datasets empty_world) = Ok true
  /\ snd (rule_applies_to_class classless_env
            (rule_with_classes {| cls_Include := Some ["Events"];
                                  cls_Exclude := None |})
            "/data/ae.xpt" sample_datasets empty_world) = Ok false.
Proof.
  split.
  - rewrite (undetermined_class_is_never_excluded classless_env);
      reflexivity.
  - rewrite (undetermined_class_is_never_excluded classless_env);
      reflexivity.
Defined.

(** X7: a rule without [standards] or without [core_id], or one the
    domain gate rejects, is unsuitable, and the data service is not asked
    for the class of the dataset: the world is as it was. *)
Theorem unsuitable_without_class_lookup (E : Env) (N : DomainNaming)
    (rule : Rule) (dataset_domain file_path : string) (is_split_domain : bool)
    (dsets : list Descriptor) (w : World) :
  standards rule = None \/ core_id rule = None
  \/ rule_applies_to_domain N dataset_domain rule is_split_domain = false ->
  is_suitable_for_validation E N rule dataset_domain file_path
    is_split_domain dsets w = (w, Ok false).
Proof.
  intros H. unfold is_suitable_for_validation, valid_rule_structure.
  destruct H as [H|[H|H]].
  - by rewrite H.
  - rewrite H. cbn. by rewrite andb_false_r.
  - rewrite H. by destruct (forallb _ _).
Qed.

Lemma unsuitable_without_class_lookup_witness :
  is_suitable_for_validation sample_env spec_naming
    {| core_id := None; standards := Some ["sdtmig"]; domains := None;
       classes := Some {| cls_Include := Some ["Events"];
                          cls_Exclude := None |};
       conditions := []; operations := None; output_variables := None |}
    "AE" "/data/ae.xpt" false sample_datasets empty_world
  = (empty_world, Ok false).
Proof. apply unsuitable_without_class_lookup. right. by left. Defined.

(** ** Operation executor *)

Lemma perform_rule_operations_at (E : Env) (rule : Rule)
    (pre rest : list Operation) (operation : Operation)
    (dataset ds : DataFrame) (dom : string) (dsets : list Descriptor)
    (path std std_version : string) (meddra whodrug : option string)
    (w0 w : World) :
  operations rule = Some (pre ++ operation :: rest) ->
  perform_operations E dataset dom dsets path std std_version meddra whodrug
    pre w0 = (w, Ok ds) ->
  perform_rule_operations E rule dataset dom dsets path std std_version
    meddra whodrug w0
  = bind (perform_operation E ds dom dsets path std std_version meddra
            whodrug operation)
         (fun ds' => perform_operations E ds' dom dsets path std std_version
                       meddra whodrug rest) w.
Proof.
  intros Hops Hpre. unfold perform_rule_operations. rewrite Hops.
  cbn [from_option id].
  by rewrite perform_operations_app, (bind_ok _ _ _ _ _ Hpre).
Qed.

(** X8: an operator the data processor does not have ends the run with a
    [ValueError] naming it, once the operations before it have run;
    nothing is fetched, no operation is called and the cache is left as it
    was for it. *)
Theorem unknown_operation_is_fatal (E : Env) (rule : Rule)
    (pre rest : list Operation) (operation : Operation)
    (dataset ds : DataFrame) (dom : string) (dsets : list Descriptor)
    (path std std_version : string) (meddra whodrug : option string)
    (w0 w : World) :
  operations rule = Some (pre ++ operation :: rest) ->
  perform_operations E dataset dom dsets path std std_version meddra whodrug
    pre w0 = (w, Ok ds) ->
  data_processor E (op_operator operation) = None ->
  let run := perform_rule_operations E rule dataset dom dsets path std
               std_version meddra whodrug w0 in
  snd run = Raise (ValueError ("Operation " +:+ op_operator operation
                               +:+ " doesn't exist"))
  /\ cache (fst run) = cache w
  /\ trace (fst run) = trace w.
Proof.
  intros Hops Hpre Hnone run. subst run.
  rewrite (perform_rule_operations_at _ _ _ _ _ _ _ _ _ _ _ _ _ _ _ _ Hops Hpre).
  unfold bind at 1. unfold perform_operation, bind, ret, list_new, raise.
  cbn [operation_name params_of].
  destruct (op_group operation); rewrite Hnone; by cbn.
Qed.

Lemma unknown_operation_is_fatal_witness :
  let unknown := {| op_id := "$x"; op_operator := "median";
                    op_name := Some "AESEQ"; op_domain := None;
                    op_group := None |} in
  let run := run_on_ae [min_aeseq "$min1"; unknown; min_aeseq "$min2"]
               empty_world in
  snd run = Raise (ValueError "Operation median doesn't exist")
  /\ operation_calls (trace (fst run)) = 1%nat.
Proof.
  intros unknown run. split; [|reflexivity].
  eapply (proj1 (unknown_operation_is_fatal sample_env
                   (rule_with_operations
                      [min_aeseq "$min1"; unknown; min_aeseq "$min2"])
                   [min_aeseq "$min1"] [min_aeseq "$min2"] unknown
                   ae_frame _ "AE" sample_datasets "/data/ae.xpt" "sdtmig"
                   "3-4" None None empty_world _ eq_refl _ eq_refl)).
  Unshelve. all: try (vm_compute; reflexivity).
Defined.

(** A failing operation aborts the run: when the run of the first
    operations raises, the run of the rule raises the same exception in
    the same world, and the operations after them are not run. *)
Lemma failing_operation_aborts_run (E : Env) (rule : Rule)
    (pre rest : list Operation) (dataset : DataFrame) (dom : string)
    (dsets : list Descriptor) (path std std_version : string)
    (meddra whodrug : option string) (w0 w : World) (e : Exn) :
  operations rule = Some (pre ++ rest) ->
  perform_operations E dataset dom dsets path std std_version meddra whodrug
    pre w0 = (w, Raise e) ->
  perform_rule_operations E rule dataset dom dsets path std std_version
    meddra whodrug w0 = (w, Raise e).
Proof.
  intros Hops Hpre. unfold perform_rule_operations. rewrite Hops.
  cbn [from_option id].
  by rewrite perform_operations_app, (bind_raise _ _ _ _ _ Hpre).
Qed.



(** What a cache miss does, step by step: the executor fetches the other
    domain when the loaded dataset is not the target, calls the operation
    and stores its result unless the data service is a placeholder. *)
Lemma execute_cache_miss (E : Env) (operation_to_call : Capability)
    (p : OperationParams) (w : World) :
  truthy_result (default (RScalar CNone) (cache w !! cache_key_of E p w))
  = Ok false ->
  _execute_operation E operation_to_call p w
  = bind (bind (lift (is_current_domain (dataframe p) (domain p)))
                (fun current => lift (truthy_compared current)))
      (fun current =>
         bind (if negb current then
                 match search_in_list_of_dicts (datasets p)
                         (fun item => bool_decide (dd_domain item
                                                   = Some (domain p))) with
                 | None =>
                     raise (TypeError "'NoneType' object is not subscriptable")
                 | Some domain_details =>
                     match dd_filename domain_details with
                     | None => raise (KeyError "filename")
                     | Some filename =>
                         let file_path :=
                           get_directory_path E (dataset_path p)
                           +:+ "/" +:+ filename in
                         bind (emit (EvGetDataset file_path))
                           (fun _ => ret (set_dataframe p
                                            (get_dataset E file_path)))
                     end
                 end
               else ret p)
           (fun p' =>
              bind (list_read (grouping p'))
                (fun g =>
                   bind (emit (EvOperation (operation_name p')))
                     (fun _ =>
                        bind (lift (operation_to_call p' g))
                          (fun result =>
                             bind (if negb (is_dummy_data E)
                                   then cache_add (cache_key_of E p w) result
                                   else ret tt)
                               (fun _ => ret (result, p'))))))) w.
Proof.
  intros Hmiss. unfold _execute_operation.
  unfold bind at 1, list_read at 1. unfold bind at 1, cache_get at 1.
  fold (cache_key_of E p w). unfold bind at 1, lift at 1. rewrite Hmiss.
  unfold bind, lift.
  by destruct (is_current_domain (dataframe p) (domain p)) as [[b|bs]|e].
Qed.




Lemma keeps_cache_bind {A B} (m : M A) (k : A -> M B) :
  keeps_cache m -> (forall a, keeps_cache (k a)) -> keeps_cache (bind m k).
Proof.
  intros Hm Hk w. unfold bind. specialize (Hm w).
  destruct (m w) as [w' [a|e]]; cbn in *; [|done].
  by rewrite Hk.
Qed.

Lemma keeps_cache_lift {A} (r : Res A) : keeps_cache (lift r).
Proof. by intros w. Qed.

Lemma handle_result_keeps_cache (result : Result) (p : OperationParams) :
  keeps_cache (_handle_operation_result result p).
Proof.
  unfold _handle_operation_result.
  apply keeps_cache_bind; [by intros w|]. intros g.
  destruct (truthy_list g); [|apply keeps_cache_lift].
  apply keeps_cache_bind; [apply keeps_cache_lift|]. intros df.
  apply keeps_cache_bind; [by intros w|]. intros cols.
  apply keeps_cache_bind; [apply keeps_cache_lift|]. intros sel.
  apply keeps_cache_bind; [by intros w | intros on; apply keeps_cache_lift].
Qed.

Lemma execute_dummy_keeps_cache (E : Env) (operation_to_call : Capability)
    (p : OperationParams) :
  is_dummy_data E = true -> keeps_cache (_execute_operation E operation_to_call p).
Proof.
  intros Hdummy. unfold _execute_operation. rewrite Hdummy. cbn [negb].
  apply keeps_cache_bind; [by intros w|]. intros g.
  apply keeps_cache_bind; [by intros w|]. intros result.
  apply keeps_cache_bind; [apply keeps_cache_lift|]. intros [|]; [by intros w|].
  apply keeps_cache_bind; [apply keeps_cache_lift|]. intros compared.
  apply keeps_cache_bind; [apply keeps_cache_lift|]. intros current.
  apply keeps_cache_bind.
  { destruct (negb current); [|by intros w].
    destruct (search_in_list_of_dicts _ _) as [d|]; [|by intros w].
    destruct (dd_filename d); [|by intros w].
    apply keeps_cache_bind; by intros w. }
  intros p'.
  apply keeps_cache_bind; [by intros w|]. intros g'.
  apply keeps_cache_bind; [by intros w|]. intros _.
  apply keeps_cache_bind; [apply keeps_cache_lift|]. intros r.
  apply keeps_cache_bind; by intros w.
Qed.

(** X10: with the data service in placeholder mode a run of the executor
    never writes to the cache, however it ends. *)
Theorem placeholder_mode_never_caches (E : Env) (rule : Rule)
    (dataset : DataFrame) (dom : string) (dsets : list Descriptor)
    (path std std_version : string) (meddra whodrug : option string)
    (w : World) :
  is_dummy_data E = true ->
  cache (fst (perform_rule_operations E rule dataset dom dsets path std
                std_version meddra whodrug w)) = cache w.
Proof.
  intros Hdummy. unfold perform_rule_operations.
  generalize (default [] (operations rule)). intros ops.
  revert dataset w. induction ops as [|o ops IH]; intros dataset w; [done|].
  cbn [perform_operations].
  apply (keeps_cache_bind
           (perform_operation E dataset dom dsets path std std_version meddra
              whodrug o)
           (fun ds => perform_operations E ds dom dsets path std std_version
                        meddra whodrug ops)); [|intros ds w'; apply IH].
  unfold perform_operation.
  apply keeps_cache_bind; [destruct (op_group o); by intros w'|]. intros g.
  destruct (data_processor E _) as [cap|]; [|by intros w'].
  apply keeps_cache_bind; [by apply execute_dummy_keeps_cache|].
  intros rp. apply handle_result_keeps_cache.
Qed.

Lemma placeholder_mode_never_caches_witness :
  cache (fst (perform_rule_operations dummy_env
                (rule_with_operations [min_aeseq "$min1"; dm_record_count])
                ae_frame "AE" sample_datasets "/data/ae.xpt" "sdtmig" "3-4"
                None None empty_world)) = ∅
  /\ cache (fst (run_on_ae [min_aeseq "$min1"; dm_record_count] empty_world))
     <> ∅.
Proof.
  split.
  - apply (placeholder_mode_never_caches dummy_env). reflexivity.
  - vm_compute. discriminate.
Defined.

(** X11: when the operation is not in the cache, the loaded dataset is
    not of the target domain and no descriptor carries that domain, the
    executor raises a [TypeError]; when the descriptor has no file name,
    a [KeyError].  Either way nothing was fetched, called or stored. *)
Theorem missing_descriptor_is_fatal (E : Env) (operation_to_call : Capability)
    (p : OperationParams) (w : World) :
  truthy_result (default (RScalar CNone) (cache w !! cache_key_of E p w))
  = Ok false ->
  is_current_domain (dataframe p) (domain p) = Ok (CmpBool false) ->
  (search_in_list_of_dicts (datasets p)
     (fun item => bool_decide (dd_domain item = Some (domain p))) = None ->
   _execute_operation E operation_to_call p w
   = (w, Raise (TypeError "'NoneType' object is not subscriptable")))
  /\ (forall d,
        search_in_list_of_dicts (datasets p)
          (fun item => bool_decide (dd_domain item = Some (domain p)))
        = Some d ->
        dd_filename d = None ->
        _execute_operation E operation_to_call p w
        = (w, Raise (KeyError "filename"))).
Proof.
  intros Hmiss Hcur. rewrite (execute_cache_miss _ _ _ _ Hmiss), Hcur.
  split.
  - intros Hnone. unfold bind at 1. unfold bind at 1, lift at 1.
    cbn [truthy_compared lift negb]. unfold bind at 1. by rewrite Hnone.
  - intros d Hd Hf. unfold bind at 1. unfold bind at 1, lift at 1.
    cbn [truthy_compared lift negb]. unfold bind at 1. by rewrite Hd, Hf.
Qed.

Lemma missing_descriptor_is_fatal_witness :
  _execute_operation sample_env record_count_capability
    lb_record_count_params empty_world
  = (empty_world, Raise (TypeError "'NoneType' object is not subscriptable")).
Proof.
  apply (proj1 (missing_descriptor_is_fatal sample_env record_count_capability
                  lb_record_count_params empty_world eq_refl eq_refl)).
  reflexivity.
Defined.

(** X12: relationship datasets ([RELREC], [RELSUB], [CO], [SUPP--]) are
    always looked up: on a cache miss the executor fetches the file of the
    target domain and hands that dataset to the operation, even when the
    loaded dataset is of that very domain. *)
Theorem relationship_dataset_always_fetched (E : Env)
    (operation_to_call : Capability) (p : OperationParams) (w : World)
    (d : Descriptor) (filename : string) (r : Result) :
  is_relationship_dataset (domain p) = true ->
  truthy_result (default (RScalar CNone) (cache w !! cache_key_of E p w))
  = Ok false ->
  search_in_list_of_dicts (datasets p)
    (fun item => bool_decide (dd_domain item = Some (domain p))) = Some d ->
  dd_filename d = Some filename ->
  let file_path := get_directory_path E (dataset_path p) +:+ "/" +:+ filename in
  let fetched := set_dataframe p (get_dataset E file_path) in
  operation_to_call fetched (default [] (heap w !! grouping p)) = Ok r ->
  exists w',
    _execute_operation E operation_to_call p w = (w', Ok (r, fetched))
    /\ trace w' = trace w ++ [EvGetDataset file_path;
                              EvOperation (operation_name p)].
Proof.
  intros Hrel Hmiss Hd Hf file_path fetched Hcall.
  rewrite (execute_cache_miss _ _ _ _ Hmiss).
  unfold is_current_domain. rewrite Hrel. cbn [negb].
  unfold bind at 1. unfold bind at 1, lift at 1.
  cbn [truthy_compared lift negb]. rewrite Hd, Hf.
  subst fetched file_path.
  unfold bind, emit, ret, list_read, lift, cache_add.
  cbn [fst snd heap trace cache grouping operation_name set_dataframe].
  rewrite Hcall. destruct (is_dummy_data E);
    cbn [negb fst snd heap trace cache];
    try destruct (cache w !! cache_key_of E p w);
    eexists; (split; [reflexivity|]); cbn [trace]; by rewrite <- app_assoc.
Qed.

Lemma relationship_dataset_always_fetched_witness :
  is_current_domain co_frame "CO" = Ok (CmpBool false)
  /\ exists w',
       _execute_operation sample_env record_count_capability
         (co_record_count_params co_frame) empty_world
       = (w', Ok (RScalar (CInt 3),
                  set_dataframe (co_record_count_params co_frame) ae_frame))
       /\ trace w' = [EvGetDataset "/data/co.xpt"; EvOperation "record_count"].
Proof.
  split; [reflexivity|].
  apply (relationship_dataset_always_fetched sample_env
           record_count_capability (co_record_count_params co_frame)
           empty_world {| dd_domain := Some "CO"; dd_filename := Some "co.xpt" |}
           "co.xpt" (RScalar (CInt 3)));
    reflexivity.
Defined.

Lemma assoc_get_set_eq {A} (label : string) (c : A) (cols : list (string * A)) :
  assoc_get label (assoc_set label c cols) = Some c.
Proof.
  induction cols as [|[l c'] cols IH]; cbn.
  - by rewrite String.eqb_refl.
  - destruct (String.eqb l label) eqn:Hl; cbn; by rewrite Hl.
Qed.

Lemma assoc_get_set_ne {A} (label other : string) (c : A)
    (cols : list (string * A)) :
  other <> label ->
  assoc_get other (assoc_set label c cols) = assoc_get other cols.
Proof.
  intros Hne. induction cols as [|[l c'] cols IH]; cbn.
  - destruct (String.eqb_spec label other); [congruence | done].
  - destruct (String.eqb_spec l label) as [->|Hl]; cbn.
    + destruct (String.eqb_spec label other); [congruence | done].
    + destruct (String.eqb l other); [done | apply IH].
Qed.

(** X13: without grouping columns a scalar result becomes a constant
    column: the dataset that comes back has the rows of the bundle's
    dataset, the scalar in every row of the column named by the operation
    id, and every other column as it was; the world, and with it the
    rule's list objects, is untouched. *)
Theorem scalar_result_becomes_constant_column (c : Cell) (p : OperationParams)
    (w : World) :
  truthy_list (default [] (heap w !! grouping p)) = false ->
  exists df,
    _handle_operation_result (RScalar c) p w = (w, Ok df)
    /\ nrows df = nrows (dataframe p)
    /\ assoc_get (operation_id p) (columns df)
       = Some (repeat c (nrows (dataframe p)))
    /\ forall label, label <> operation_id p ->
         assoc_get label (columns df) = assoc_get label (columns (dataframe p)).
Proof.
  intros Hg. unfold _handle_operation_result, bind, list_read, lift. cbn.
  rewrite Hg. eexists. split; [reflexivity|]. cbn.
  split; [done|]. split; [apply assoc_get_set_eq|].
  intros label Hne. by apply assoc_get_set_ne.
Qed.

Lemma scalar_result_becomes_constant_column_witness :
  exists df,
    _handle_operation_result (RScalar (CInt 0))
      (params_of sample_env (min_aeseq "$min1") ae_frame "AE" sample_datasets
         "/data/ae.xpt" "sdtmig" "3-4" None None 0%nat) empty_world
    = (empty_world, Ok df)
    /\ nrows df = 3%nat
    /\ assoc_get "$min1" (columns df) = Some [CInt 0; CInt 0; CInt 0].
Proof.
  destruct (scalar_result_becomes_constant_column (CInt 0)
              (params_of sample_env (min_aeseq "$min1") ae_frame "AE"
                 sample_datasets "/data/ae.xpt" "sdtmig" "3-4" None None 0%nat)
              empty_world eq_refl) as [df [H1 [H2 [H3 _]]]].
  exists df. split; [exact H1|]. split; [exact H2 | exact H3].
Defined.

(** ** More of the condition tree rewriter *)

(** X15: the size unit of a rule is the unit of the first leaf whose
    target is [dataset_size]: the leaves before it need a value and a
    target, the leaves after it are not read. *)
Theorem size_unit_of_first_dataset_size_leaf (rule : Rule)
    (before after : list Condition) (c : Condition) (v : Value) :
  values (conditions rule) = before ++ c :: after ->
  Forall (fun b => exists vb tb, c_value b = Some vb /\ v_target vb = Some tb
                                 /\ tb <> "dataset_size") before ->
  c_value c = Some v ->
  v_target v = Some "dataset_size" ->
  get_size_unit_from_rule rule = Ok (v_unit v).
Proof.
  intros Hvals Hbefore Hc Ht. unfold get_size_unit_from_rule. rewrite Hvals.
  clear Hvals. induction Hbefore as [|b before [vb [tb [Hvb [Htb Hne]]]] _ IH].
  - cbn. unfold value_target. by rewrite Hc, Ht.
  - cbn. unfold value_target. rewrite Hvb, Htb.
    destruct (String.eqb_spec tb "dataset_size"); [done | exact IH].
Qed.

Lemma size_unit_of_first_dataset_size_leaf_witness :
  get_size_unit_from_rule (rule_with_conditions size_tree) = Ok (Some "MB").
Proof.
  eapply (size_unit_of_first_dataset_size_leaf (rule_with_conditions size_tree)
            [_] [_] _ {| v_target := Some "dataset_size";
                         v_comparator := Some "5"; v_unit := Some "MB" |}).
  - reflexivity.
  - repeat constructor. eexists _, _. repeat split; discriminate.
  - reflexivity.
  - reflexivity.
Defined.

Section Rewrite.
Context {A L : Type}.
Variable f : A -> list L -> A * list L.
Variable out : A -> list L.
Variable g : L -> list L.

Lemma thread_rewrites (l : list A) :
  Forall (rewrites f out g) l ->
  forall s : list L,
    length (flat_map out l) <= length s ->
    flat_map out (fst (thread f l s))
    = flat_map g (take (length (flat_map out l)) s)
    /\ snd (thread f l s) = drop (length (flat_map out l)) s.
Proof.
  induction 1 as [|a l Ha _ IH]; intros s Hlen.
  - cbn. by rewrite take_0, drop_0.
  - cbn [flat_map] in *. rewrite length_app in *.
    destruct (Ha s) as [Hout Hrest]; [lia|].
    cbn [thread]. destruct (f a s) as [a' s'] eqn:Hf. cbn [fst snd] in *.
    destruct (IH s') as [Hout' Hrest'].
    { subst s'. rewrite length_drop. lia. }
    destruct (thread f l s') as [l'' s''] eqn:Ht. cbn [fst snd flat_map] in *.
    rewrite Hout, Hout', Hrest', Hrest, drop_drop.
    by rewrite <- take_take_drop, flat_map_app.
Qed.
End Rewrite.

Lemma refill_branch_rewrites (b : AllowedConditionsKeys * list Condition) :
  Forall (rewrites refill leaves leaves) (snd b) ->
  rewrites refill_branch (fun b => flat_map leaves (snd b)) leaves b.
Proof.
  intros Hb s Hlen. unfold refill_branch.
  destruct (thread_rewrites refill leaves leaves (snd b) Hb s Hlen)
    as [Hout Hrest].
  by destruct (thread refill (snd b) s) as [cs s'].
Qed.

Lemma refill_rewrites (c : Condition) : rewrites refill leaves leaves c.
Proof.
  induction c as [n o v branches IH] using Condition_nested_ind.
  intros s Hlen. destruct branches as [|b bs].
  - cbn in *. destruct s as [|c' rest]; [cbn in Hlen; lia|].
    cbn. rewrite take_0, drop_0. cbn. by rewrite app_nil_r.
  - assert (Hbs : Forall (rewrites refill_branch
                            (fun b => flat_map leaves (snd b)) leaves)
                         (b :: bs)).
    { eapply Forall_impl; [exact IH|]. intros b'. apply refill_branch_rewrites. }
    change (leaves (mkCondition n o v (b :: bs)))
      with (flat_map (fun b => flat_map leaves (snd b)) (b :: bs)) in *.
    destruct (thread_rewrites _ _ _ _ Hbs s Hlen) as [Hout Hrest].
    change (refill (mkCondition n o v (b :: bs)) s)
      with (let (branches', rest) := thread refill_branch (b :: bs) s in
            (mkCondition n o v branches', rest)).
    pose proof (thread_length refill_branch (b :: bs) s) as Hl.
    destruct (thread refill_branch (b :: bs) s) as [branches' rest].
    cbn [fst snd] in *. split; [|done].
    destruct branches' as [|b' bs']; [discriminate Hl|]. exact Hout.
Qed.

(** The leaves of a tree whose leaves were overwritten are the leaves of
    what was written, in order. *)
Lemma values_after_set_values (t : ConditionInterface) (ls : list Condition) :
  length ls = length (values t) ->
  values (set_values t ls) = flat_map leaves ls.
Proof.
  intros Hlen. unfold values, set_values.
  assert (Ht : Forall (rewrites refill_branch
                         (fun b => flat_map leaves (snd b)) leaves) t).
  { apply List.Forall_forall. intros b _. apply refill_branch_rewrites.
    apply List.Forall_forall. intros c _. apply refill_rewrites. }
  destruct (thread_rewrites _ _ _ _ Ht ls) as [Hout _].
  - unfold values in Hlen. lia.
  - rewrite Hout. f_equal. apply take_ge. unfold values in Hlen. lia.
Qed.

Lemma for_each_value_total (body : Condition -> Condition)
    (ls : list Condition) :
  for_each_value (fun c => Ok (body c)) ls = (map body ls, Ok tt).
Proof.
  induction ls as [|c rest IH]; [done|]. cbn. by rewrite IH.
Qed.

(** The leaves one leaf becomes when operators are added. *)
Lemma leaves_add_operator_body (m : gmap string OperatorToAdd) (dom : string)
    (c : Condition) :
  is_leaf c = true ->
  leaves (add_operator_body m dom c)
  = match m !! resolved_target dom c with
    | Some (OneOperator s) => if truthy_str s then [with_operator c s] else [c]
    | Some (SeveralOperators l) =>
        if truthy_list l then map (with_operator c) l else [c]
    | None => [c]
    end.
Proof.
  intros Hleaf. destruct c as [n o v [|b bs]]; [|discriminate].
  unfold add_operator_body.
  destruct (m !! resolved_target dom (mkCondition n o v [])) as [[s|l]|];
    cbn [truthy_operator negb]; [| |done].
  - by destruct (truthy_str s).
  - destruct l as [|x l]; [done|]. cbn [truthy_list negb leaves flat_map snd].
    rewrite app_nil_r. clear. generalize (x :: l). intros l'.
    induction l' as [|y l' IH]; [done|].
    cbn [map flat_map]. by rewrite IH.
Qed.

(** X16: adding operators replaces every leaf in place: a leaf whose
    resolved target is mapped to one operator carries that operator, a
    leaf whose target is mapped to a list of operators gives way to one
    copy per operator of the list, in order, and every other leaf stays;
    the copies keep the name and the value of the leaf. *)
Theorem add_operator_replaces_leaves_in_place (rule : Rule)
    (m : gmap string OperatorToAdd) (dom : string) :
  values (conditions (add_operator_to_rule_conditions rule m dom))
  = flat_map
      (fun c =>
         match m !! resolved_target dom c with
         | Some (OneOperator s) =>
             if truthy_str s then [with_operator c s] else [c]
         | Some (SeveralOperators l) =>
             if truthy_list l then map (with_operator c) l else [c]
         | None => [c]
         end)
      (values (conditions rule))
  /\ forall c s, c_name (with_operator c s) = c_name c
                 /\ c_value (with_operator c s) = c_value c
                 /\ c_operator (with_operator c s) = Some s.
Proof.
  split; [|by intros [n o v b] s].
  unfold add_operator_to_rule_conditions.
  rewrite for_each_value_total. cbn [conditions set_conditions].
  rewrite values_after_set_values by (by rewrite length_map).
  pose proof (values_are_leaves (conditions rule)) as Hl.
  induction Hl as [|c ls Hc _ IH]; [done|].
  cbn [map flat_map]. by rewrite IH, (leaves_add_operator_body m dom c Hc).
Qed.

Lemma add_comparator_values (rule : Rule)
    (comparator : option (gmap string string)) (target_prefix : option string) :
  values (conditions
            (fst (add_comparator_to_rule_conditions rule comparator
                    target_prefix)))
  = fst (for_each_value (add_comparator_body comparator target_prefix)
           (values (conditions rule)))
  /\ snd (add_comparator_to_rule_conditions rule comparator target_prefix)
     = snd (for_each_value (add_comparator_body comparator target_prefix)
              (values (conditions rule))).
Proof.
  unfold add_comparator_to_rule_conditions.
  set (body := add_comparator_body comparator target_prefix).
  pose proof (for_each_value_length body (values (conditions rule))) as Hlen.
  pose proof (for_each_value_leaves body (values (conditions rule))
                (add_comparator_body_leaf comparator target_prefix)
                (values_are_leaves _)) as Hleaves.
  destruct (for_each_value body (values (conditions rule))) as [ls r].
  cbn [fst snd conditions set_conditions] in *. split; [|done].
  by apply values_set_values.
Qed.

Lemma add_comparator_body_frame (comparator : option (gmap string string))
    (target_prefix : option string) (c c' : Condition) :
  add_comparator_body comparator target_prefix c = Ok c' ->
  leaf_frame c' = leaf_frame c.
Proof.
  unfold add_comparator_body.
  destruct c as [n o [v|] b]; [|done]. cbn [c_value].
  repeat match goal with
         | |- context [match ?x with _ => _ end] => destruct x
         end; by intros [= <-].
Qed.

(** X17: adding comparators changes comparators only: name, operator,
    target and unit of every leaf are what they were, for every comparator
    map and prefix, also when the call raises part of the way. *)
Theorem add_comparator_keeps_targets (rule : Rule)
    (comparator : option (gmap string string)) (target_prefix : option string) :
  map leaf_frame
      (values (conditions
                 (fst (add_comparator_to_rule_conditions rule comparator
                         target_prefix))))
  = map leaf_frame (values (conditions rule)).
Proof.
  rewrite (proj1 (add_comparator_values rule comparator target_prefix)).
  induction (values (conditions rule)) as [|c ls IH]; [done|].
  cbn [for_each_value].
  destruct (add_comparator_body comparator target_prefix c) as [c'|e] eqn:Hb;
    [|done].
  destruct (for_each_value _ ls) as [ls' r]. cbn [fst map] in *.
  by rewrite IH, (add_comparator_body_frame _ _ _ _ Hb).
Qed.

Lemma add_comparator_body_prefix (prefix : string) (c c1 : Condition) :
  prefix <> "" ->
  add_comparator_body None (Some prefix) c = Ok c1 ->
  exists v t, c_value c = Some v /\ v_target v = Some t
              /\ c_value c1 = Some (set_comparator v (prefix +:+ t)).
Proof.
  intros Hpre. unfold add_comparator_body, value_target.
  destruct c as [n o [v|] b]; [|done]. cbn [c_value truthy_dict].
  assert (Hp : truthy_opt_str (Some prefix) = true) by (by destruct prefix).
  rewrite Hp. destruct (v_target v) as [t|] eqn:Ht; [|done].
  cbn [from_option id].
  assert (Hp' : truthy_opt_str (Some (prefix +:+ t)) = true)
    by (by destruct prefix).
  rewrite Hp'. intros [= <-]. by exists v, t.
Qed.

Lemma collect_referenced_after_prefix (prefix : string)
    (ls ls1 : list Condition) (acc : list string) :
  prefix <> "" ->
  Forall2 (fun c c1 => add_comparator_body None (Some prefix) c = Ok c1)
          ls ls1 ->
  collect_referenced ls1 acc
  = Ok (acc ++ flat_map
                 (fun c => (if truthy_str (target_of c)
                            then [target_of c] else [])
                           ++ [prefix +:+ target_of c])
                 ls).
Proof.
  intros Hpre Hall. revert acc.
  induction Hall as [|c c1 ls ls1 Hb _ IH]; intros acc.
  - cbn. by rewrite app_nil_r.
  - destruct (add_comparator_body_prefix prefix c c1 Hpre Hb)
      as [v [t [Hcv [Ht Hc1]]]].
    cbn [collect_referenced flat_map]. rewrite Hc1.
    cbn [v_target v_comparator set_comparator].
    unfold target_of at 1 2 3. rewrite Hcv. cbn [mbind option_bind]. rewrite Ht.
    cbn [from_option id truthy_opt_str].
    assert (Hp' : truthy_str (prefix +:+ t) = true) by (by destruct prefix).
    rewrite Hp', IH.
    destruct (truthy_str t); by rewrite <- !app_assoc.
Qed.

(** X18: after comparators were added with a non-empty prefix, the
    variables the rule references are, leaf by leaf, the target (when it
    is not empty) followed by the prefixed target. *)
Theorem referenced_variables_after_prefix (rule : Rule) (prefix : string) :
  prefix <> "" ->
  snd (add_comparator_to_rule_conditions rule None (Some prefix)) = Ok tt ->
  extract_referenced_variables_from_rule
    (fst (add_comparator_to_rule_conditions rule None (Some prefix)))
  = Ok (flat_map
          (fun c => (if truthy_str (target_of c) then [target_of c] else [])
                    ++ [prefix +:+ target_of c])
          (values (conditions rule))).
Proof.
  intros Hpre Hok. unfold extract_referenced_variables_from_rule.
  destruct (add_comparator_values rule None (Some prefix)) as [Hv Hr].
  rewrite Hv. rewrite Hr in Hok.
  by rewrite (collect_referenced_after_prefix prefix _ _ [] Hpre
                (for_each_value_ok _ _ Hok)).
Qed.

Lemma referenced_variables_after_prefix_witness :
  extract_referenced_variables_from_rule
    (fst (add_comparator_to_rule_conditions (rule_with_conditions nested_tree)
            None (Some "parent_")))
  = Ok ["USUBJID"; "parent_USUBJID"; "--SEQ"; "parent_--SEQ";
        "IDVAR"; "parent_IDVAR"].
Proof.
  rewrite (referenced_variables_after_prefix
             (rule_with_conditions nested_tree) "parent_");
    [reflexivity | discriminate | reflexivity].
Defined.

Lemma collect_target_names_without_value (dom : string)
    (column_names : list string) (before after : list Condition)
    (c : Condition) (acc : list string) :
  Forall (leaf_readable dom) before ->
  c_value c = None ->
  collect_target_names dom column_names (before ++ c :: after) acc
  = Raise (KeyError "value").
Proof.
  intros Hbefore Hc. revert acc.
  induction Hbefore as [|b before [v [Hv Hpat]] _ IH]; intros acc.
  - cbn. by rewrite Hc.
  - cbn [app collect_target_names]. rewrite Hv.
    destruct (v_target v) as [t|] eqn:Ht; [|apply IH].
    rewrite operator_related_pattern_cases.
    destruct (is_additional_columns_operator (c_operator b)) eqn:Hop;
      [|apply IH].
    destruct (filter_matching_elements _ column_names (Hpat t eq_refl eq_refl))
      as [matching [Hm _]].
    unfold additional_columns_pattern in *. rewrite Hm. apply IH.
Qed.

(** X19: a leaf without [value] makes the extraction of target names
    raise [KeyError], unless the rule declares output variables: then the
    conditions are not read, and the names are the output variables with
    the first placeholder resolved. *)
Theorem output_variables_shadow_conditions (rule : Rule) (dom : string)
    (column_names : list string) (before after : list Condition)
    (c : Condition) :
  values (conditions rule) = before ++ c :: after ->
  Forall (leaf_readable dom) before ->
  c_value c = None ->
  (truthy_list (default [] (output_variables rule)) = false ->
   extract_target_names_from_rule rule dom column_names
   = Raise (KeyError "value"))
  /\ (truthy_list (default [] (output_variables rule)) = true ->
      exists names : gset string,
        extract_target_names_from_rule rule dom column_names = Ok names
        /\ forall x, x ∈ names
                     <-> exists var, In var (default [] (output_variables rule))
                                     /\ x = str_replace var "--" dom (Some 1%nat)).
Proof.
  intros Hvals Hbefore Hc. unfold extract_target_names_from_rule. split.
  - intros ->. rewrite Hvals.
    by rewrite (collect_target_names_without_value _ _ _ _ _ _ Hbefore Hc).
  - intros ->. eexists. split; [reflexivity|]. intros x.
    rewrite elem_of_list_to_set, merge_sort_Permutation, list_elem_of_In,
      in_map_iff.
    split; intros [var [H1 H2]]; exists var; by split.
Qed.

Lemma output_variables_shadow_conditions_witness :
  extract_target_names_from_rule (rule_with_conditions broken_tree) "AE"
    ["AESEQ"] = Raise (KeyError "value")
  /\ extract_target_names_from_rule
       (rule_with_output_variables broken_tree ["--TEST--"; "USUBJID"]) "AE"
       ["AESEQ"] = Ok {[ "AETEST--"; "USUBJID" ]}
  /\ exists names : gset string,
       extract_target_names_from_rule
         (rule_with_output_variables broken_tree ["--TEST--"; "USUBJID"]) "AE"
         ["AESEQ"] = Ok names
       /\ forall x, x ∈ names
                    <-> exists var, In var ["--TEST--"; "USUBJID"]
                                    /\ x = str_replace var "--" "AE" (Some 1%nat).
Proof.
  set (l1 := mkCondition None (Some "equal_to")
               (Some {| v_target := Some "--SEQ"; v_comparator := None;
                        v_unit := None |}) []).
  set (l2 := mkCondition (Some "get_dataset") (Some "non_empty") None []).
  assert (Hb : Forall (leaf_readable "AE") [l1]).
  { repeat constructor. eexists. split; [reflexivity|]. intros t _ [=]. }
  split; [|split].
  - apply (proj1 (output_variables_shadow_conditions
                    (rule_with_conditions broken_tree) "AE" ["AESEQ"]
                    [l1] [] l2 eq_refl Hb eq_refl)).
    reflexivity.
  - vm_compute. reflexivity.
  - apply (proj2 (output_variables_shadow_conditions
                    (rule_with_output_variables broken_tree
                       ["--TEST--"; "USUBJID"]) "AE" ["AESEQ"]
                    [l1] [] l2 eq_refl Hb eq_refl)).
    reflexivity.
Defined.

(** X20: multiplying the conditions by an empty list of targets removes
    every condition: the branches keep their keys and are empty, and the
    tree has no leaf left. *)
Theorem no_target_no_condition (rule : Rule) :
  let rule' := create_list_of_conditions_for_each_target rule [] in
  conditions rule' = map (fun b => (fst b, [])) (conditions rule)
  /\ values (conditions rule') = [].
Proof.
  intros rule'. subst rule'.
  unfold create_list_of_conditions_for_each_target, get_condition_composite,
    items, create_list_of_target_conditions.
  cbn [conditions set_conditions].
  assert (Hnil : forall cl : list Condition,
             flat_map (fun condition : Condition =>
                         map (target_condition condition) []) cl = []).
  { induction cl as [|c cl IH]; [done | exact IH]. }
  split.
  - apply map_ext. intros [k cl]. cbn. by rewrite Hnil.
  - unfold values. induction (conditions rule) as [|[k cl] t IH]; [done|].
    cbn. rewrite Hnil. exact IH.
Qed.

(** ** Row numbers *)

Lemma assoc_set_twice {A} (label : string) (c c' : A) (cols : list (string * A)) :
  assoc_set label c (assoc_set label c' cols) = assoc_set label c cols.
Proof.
  induction cols as [|[l x] cols IH]; cbn.
  - by rewrite String.eqb_refl.
  - destruct (String.eqb l label) eqn:Hl; cbn; rewrite Hl; [done|].
    by rewrite IH.
Qed.

(** X21: [add_row_number] numbers the rows from 1: the frame keeps its
    row count and its other columns, row [i] (from 0) of [row_number] is
    [i + 1], and numbering a numbered frame again changes nothing. *)
Theorem row_numbers_start_at_one (dataframe : DataFrame) :
  let df := add_row_number dataframe in
  nrows df = nrows dataframe
  /\ (exists rn, assoc_get "row_number" (columns df) = Some rn
                 /\ length rn = nrows dataframe
                 /\ forall i, (i < nrows dataframe)%nat ->
                      rn !! i = Some (CInt (Z.of_nat (i + 1))))
  /\ (forall label, label <> "row_number" ->
        assoc_get label (columns df) = assoc_get label (columns dataframe))
  /\ add_row_number df = df.
Proof.
  intros df. subst df. unfold add_row_number. cbn [nrows columns].
  split; [done|]. split; [|split].
  - eexists. split; [apply assoc_get_set_eq|].
    split; [by rewrite length_map, length_seq|].
    intros i Hi. rewrite list_lookup_fmap.
    rewrite lookup_seq_lt by done. cbn. do 3 f_equal. lia.
  - intros label Hne. by apply assoc_get_set_ne.
  - by rewrite assoc_set_twice.
Qed.

Lemma row_numbers_start_at_one_witness :
  assoc_get "row_number" (columns (add_row_number ae_frame))
  = Some [CInt 1; CInt 2; CInt 3]
  /\ exists rn, assoc_get "row_number" (columns (add_row_number ae_frame))
                = Some rn
                /\ rn !! 2%nat = Some (CInt 3).
Proof.
  split; [reflexivity|].
  destruct (row_numbers_start_at_one ae_frame) as [_ [[rn [Hrn [_ Hi]]] _]].
  exists rn. split; [exact Hrn|].
  apply (Hi 2%nat). cbn. lia.
Defined.

(** ** WHODrug terms *)

Lemma length_substring (n m : nat) (s : string) :
  String.length (String.substring n m s) <= m.
Proof.
  revert n m. induction s as [|c s IH]; intros [|n] [|m]; cbn; try lia.
  - specialize (IH 0%nat m). lia.
  - apply (IH n 0%nat).
  - apply (IH n (S m)).
Qed.

Lemma substring_short (n m : nat) (s : string) :
  String.length s <= n -> String.substring n m s = "".
Proof.
  revert n. induction s as [|c s IH]; intros [|n] H; cbn in *;
    try done; try lia.
  - by destruct m.
  - apply IH. lia.
Qed.

Lemma length_lstrip (s : string) : String.length (lstrip s) <= String.length s.
Proof.
  induction s as [|c s IH]; [done|]. cbn.
  destruct (is_whitespace c); cbn; lia.
Qed.

Lemma length_rstrip (s : string) : String.length (rstrip s) <= String.length s.
Proof.
  induction s as [|c s IH]; [done|]. cbn.
  destruct (rstrip s); [destruct (is_whitespace c)|]; cbn in *; lia.
Qed.

Lemma length_strip (s : string) : String.length (strip s) <= String.length s.
Proof.
  unfold strip. pose proof (length_lstrip (rstrip s)).
  pose proof (length_rstrip s). lia.
Qed.

Lemma rstrip_rstrip (s : string) : rstrip (rstrip s) = rstrip s.
Proof.
  induction s as [|c s IH]; [done|]. cbn.
  destruct (rstrip s) as [|d r] eqn:Hr.
  - destruct (is_whitespace c) eqn:Hc; [done|]. cbn. by rewrite Hc.
  - cbn [rstrip] in *. by rewrite IH.
Qed.

Lemma rstrip_tail (c : ascii) (s : string) :
  rstrip (String c s) = String c s -> rstrip s = s.
Proof.
  cbn. destruct (rstrip s) as [|d r] eqn:Hr.
  - destruct (is_whitespace c); [done|]. by intros [= <-].
  - by intros [= <-].
Qed.

Lemma rstrip_lstrip (s : string) : rstrip s = s -> rstrip (lstrip s) = lstrip s.
Proof.
  induction s as [|c s IH]; [done|]. intros H. cbn [lstrip].
  destruct (is_whitespace c); [|done].
  apply IH. by eapply rstrip_tail.
Qed.

Lemma lstrip_lstrip (s : string) : lstrip (lstrip s) = lstrip s.
Proof.
  induction s as [|c s IH]; [done|]. cbn.
  destruct (is_whitespace c) eqn:Hc; [done|]. cbn. by rewrite Hc.
Qed.

Lemma strip_strip (s : string) : strip (strip s) = strip s.
Proof.
  unfold strip.
  rewrite (rstrip_lstrip (rstrip s) (rstrip_rstrip s)). apply lstrip_lstrip.
Qed.

(** X22: the fields of an ATC classification record are bounded and
    clean: the parent code has at most 6 characters and the code at most
    7, neither has white space at its ends, and a line of 12 characters
    or fewer gives the empty code instead of an error. *)
Theorem atc_fields_bounded_and_stripped (ATC_CLASSIFICATION dictionary_id
    line : string) :
  let r := from_txt_line ATC_CLASSIFICATION dictionary_id line in
  String.length (parentCode r) <= 6
  /\ String.length (code r) <= 7
  /\ strip (parentCode r) = parentCode r
  /\ strip (code r) = code r
  /\ (String.length line <= 12 -> code r = "").
Proof.
  intros r. subst r. unfold from_txt_line, slice. cbn [parentCode code].
  repeat split.
  - pose proof (length_strip (String.substring 0 (6 - 0) line)).
    pose proof (length_substring 0 (6 - 0) line). cbn in *. lia.
  - pose proof (length_strip (String.substring 12 (19 - 12) line)).
    pose proof (length_substring 12 (19 - 12) line). cbn in *. lia.
  - apply strip_strip.
  - apply strip_strip.
  - intros H. by rewrite substring_short.
Qed.

Lemma atc_fields_bounded_and_stripped_witness :
  code (from_txt_line "ATC_CLASSIFICATION" "1" "000001") = ""
  /\ parentCode (from_txt_line "ATC_CLASSIFICATION" "1" "000001") = "000001".
Proof.
  split; [|reflexivity].
  apply (atc_fields_bounded_and_stripped "ATC_CLASSIFICATION" "1" "000001").
  cbn. lia.
Defined.

Lemma append_String (c : ascii) (a b : string) :
  String c a +:+ b = String c (a +:+ b).
Proof. reflexivity. Qed.

Lemma append_empty (b : string) : "" +:+ b = b.
Proof. reflexivity. Qed.

Lemma length_spaces (n : nat) : String.length (spaces n) = n.
Proof. induction n as [|n IH]; [done|]. cbn. by f_equal. Qed.

Lemma length_append (a b : string) :
  String.length (a +:+ b) = (String.length a + String.length b)%nat.
Proof.
  induction a as [|c a IH]; [done|]. rewrite append_String. cbn. by f_equal.
Qed.

Lemma rstrip_spaces (n : nat) : rstrip (spaces n) = "".
Proof. induction n as [|n IH]; [done|]. cbn. by rewrite IH. Qed.

Lemma rstrip_append_spaces (s : string) (n : nat) :
  rstrip (s +:+ spaces n) = rstrip s.
Proof.
  induction s as [|c s IH]; [rewrite append_empty; apply rstrip_spaces|].
  rewrite append_String. cbn. by rewrite IH.
Qed.

Lemma strip_ljust (s : string) (n : nat) : strip s = s -> strip (ljust s n) = s.
Proof.
  intros H. unfold strip, ljust in *. by rewrite rstrip_append_spaces.
Qed.

Lemma substring_prefix (a b : string) :
  String.substring 0 (String.length a) (a +:+ b) = a.
Proof.
  induction a as [|c a IH].
  - rewrite append_empty. cbn. by destruct b.
  - rewrite append_String. cbn. by rewrite IH.
Qed.

Lemma substring_skip (a b : string) (m : nat) :
  String.substring (String.length a) m (a +:+ b) = String.substring 0 m b.
Proof.
  induction a as [|c a IH]; [done|]. rewrite append_String. cbn. exact IH.
Qed.

Lemma append_assoc (a b c : string) : (a +:+ b) +:+ c = a +:+ b +:+ c.
Proof.
  induction a as [|x a IH]; [done|]. rewrite !append_String. by rewrite IH.
Qed.

Lemma length_ljust (s : string) (n : nat) :
  String.length s <= n -> String.length (ljust s n) = n.
Proof. intros H. unfold ljust. rewrite length_append, length_spaces. lia. Qed.

(** X23: a line laid out in fixed columns reads back: with a parent code
    of at most 6 characters left-justified in columns 0 to 5, any 6
    characters after it and a code of at most 7 characters left-justified
    in columns 12 to 18, [from_txt_line] gives the parent code and the
    code, provided they have no white space at their ends. *)
Theorem atc_line_round_trip (ATC_CLASSIFICATION dictionary_id : string)
    (parent atc filler rest : string) :
  strip parent = parent ->
  strip atc = atc ->
  String.length parent <= 6 ->
  String.length atc <= 7 ->
  String.length filler = 6%nat ->
  from_txt_line ATC_CLASSIFICATION dictionary_id
    (ljust parent 6 +:+ filler +:+ ljust atc 7 +:+ rest)
  = {| atc_type := ATC_CLASSIFICATION; parentCode := parent; code := atc |}.
Proof.
  intros Hp Ha Hlp Hla Hf. unfold from_txt_line, slice. f_equal.
  - replace (6 - 0)%nat with (String.length (ljust parent 6))
      by (by rewrite length_ljust).
    rewrite substring_prefix. by apply strip_ljust.
  - rewrite <- (append_assoc (ljust parent 6) filler).
    replace 12%nat with (String.length (ljust parent 6 +:+ filler)) at 1
      by (rewrite length_append, length_ljust, Hf; [done | done]).
    rewrite substring_skip.
    replace (19 - 12)%nat with (String.length (ljust atc 7))
      by (by rewrite length_ljust).
    rewrite substring_prefix. by apply strip_ljust.
Qed.

Lemma atc_line_round_trip_witness :
  from_txt_line "ATC_CLASSIFICATION" "1" "000001 001  N02BA  1"
  = {| atc_type := "ATC_CLASSIFICATION"; parentCode := "000001";
       code := "N02BA" |}.
Proof.
  apply (atc_line_round_trip "ATC_CLASSIFICATION" "1" "000001" "N02BA"
           " 001  " "1"); [reflexivity | reflexivity | | | reflexivity];
    cbn; lia.
Defined.

Section WhoDrugFactoryProperties.
Variable Term : Type.
Variable term_type : Term -> string.
Variables DD_FILE_NAME DDA_FILE_NAME INA_FILE_NAME : string.
Variable ATC_CLASSIFICATION : string.
Variables DrugDictionary AtcText : list string -> Res Term.
Variable atc_term : AtcClassification -> Term.
Variable files : gmap string (list string).
Variable FileNotFoundError : string -> Exn.

Let the_map :=
  file_name_model_map Term DD_FILE_NAME DDA_FILE_NAME INA_FILE_NAME
    ATC_CLASSIFICATION DrugDictionary AtcText atc_term.
Let install_from :=
  install_files Term term_type DD_FILE_NAME DDA_FILE_NAME INA_FILE_NAME
    ATC_CLASSIFICATION DrugDictionary AtcText atc_term files
    FileNotFoundError.
Let install :=
  install_terms Term term_type DD_FILE_NAME DDA_FILE_NAME INA_FILE_NAME
    ATC_CLASSIFICATION DrugDictionary AtcText atc_term files
    FileNotFoundError.
Let read_from :=
  read_files Term DD_FILE_NAME DDA_FILE_NAME INA_FILE_NAME
    ATC_CLASSIFICATION DrugDictionary AtcText atc_term files.
Let atc_model :=
  AtcClassification_from_txt_line Term ATC_CLASSIFICATION atc_term.

Lemma create_terms_reads (model_class : list string -> Res Term)
    (lines : list string) (m : gmap string (list Term)) :
  create_terms Term term_type model_class lines m
  = match read_lines Term model_class lines with
    | Raise e => Raise e
    | Ok ts => Ok (fold_left (append_term Term term_type) ts m)
    end.
Proof.
  revert m. induction lines as [|line rest IH]; intros m; [done|].
  cbn. destruct (model_class [line]) as [t|e]; [|done].
  rewrite IH. by destruct (read_lines Term model_class rest).
Qed.

Lemma install_files_reads (directory_path : string) (names : list string)
    (m : gmap string (list Term)) :
  install_from directory_path names m
  = match read_from directory_path names with
    | Raise e => Raise e
    | Ok ts => Ok (fold_left (append_term Term term_type) ts m)
    end.
Proof.
  subst install_from read_from. revert m.
  induction names as [|name rest IH]; intros m; [done|].
  cbn [install_files read_files].
  destruct (files !! (directory_path +:+ "/" +:+ name)) as [lines|] eqn:Hf.
  - rewrite bool_decide_true by eauto. cbn [negb].
    unfold __create_term_objects_from_file. rewrite Hf.
    destruct (assoc_get name _) as [model|]; [|done].
    rewrite create_terms_reads.
    destruct (read_lines Term model lines) as [ts|e]; [|done].
    rewrite IH.
    destruct (read_files _ _ _ _ _ _ _ _ _ _ rest) as [ts'|e]; [|done].
    by rewrite fold_left_app.
  - rewrite bool_decide_false by (by intros [? ?]). cbn [negb]. apply IH.
Qed.

Lemma lookup_append_term (m : gmap string (list Term)) (t : Term) (ty : string) :
  append_term Term term_type m t !! ty
  = if String.eqb (term_type t) ty
    then Some (default [] (m !! ty) ++ [t]) else m !! ty.
Proof.
  unfold append_term. destruct (String.eqb_spec (term_type t) ty) as [<-|Hne].
  - apply lookup_insert_eq.
  - by apply lookup_insert_ne.
Qed.

Lemma lookup_grouped (ts : list Term) (m : gmap string (list Term))
    (ty : string) :
  fold_left (append_term Term term_type) ts m !! ty
  = match of_type Term term_type ty ts with
    | [] => m !! ty
    | l => Some (default [] (m !! ty) ++ l)
    end.
Proof.
  revert m. induction ts as [|t ts IH]; intros m; [done|].
  cbn [fold_left]. rewrite IH, lookup_append_term.
  unfold of_type. cbn [List.filter].
  destruct (String.eqb (term_type t) ty); [|done].
  cbn [from_option id].
  destruct (List.filter _ ts); by rewrite <- ?app_assoc.
Qed.

(** X24: installing the terms groups the lines by term type and loses
    nothing: when all lines of the files that exist are read, the terms
    under a type are the terms of that type in file order, then line
    order, and a type without term has no entry; files that do not exist
    are skipped; when a line cannot be read, the same exception ends the
    installation. *)
Theorem install_terms_groups_by_type (directory_path : string) :
  (forall e, read_from directory_path (map fst the_map) = Raise e ->
             install directory_path = Raise e)
  /\ (forall ts, read_from directory_path (map fst the_map) = Ok ts ->
        exists m,
          install directory_path = Ok m
          /\ forall ty,
               m !! ty = match of_type Term term_type ty ts with
                         | [] => None
                         | l => Some l
                         end).
Proof.
  subst install. unfold install_terms.
  fold the_map. fold install_from. rewrite install_files_reads.
  split.
  - by intros e ->.
  - intros ts ->. eexists. split; [reflexivity|]. intros ty.
    rewrite lookup_grouped, lookup_empty. by destruct (of_type _ _ _ _).
Qed.

Lemma file_name_model_map_distinct :
  DD_FILE_NAME <> DDA_FILE_NAME ->
  DD_FILE_NAME <> INA_FILE_NAME ->
  DDA_FILE_NAME <> INA_FILE_NAME ->
  the_map = [(DD_FILE_NAME, DrugDictionary); (DDA_FILE_NAME, atc_model);
             (INA_FILE_NAME, AtcText)].
Proof.
  intros H1 H2 H3. subst the_map atc_model. unfold file_name_model_map.
  cbn.
  rewrite (proj2 (String.eqb_neq DD_FILE_NAME DDA_FILE_NAME) H1). cbn.
  rewrite (proj2 (String.eqb_neq DD_FILE_NAME INA_FILE_NAME) H2).
  by rewrite (proj2 (String.eqb_neq DDA_FILE_NAME INA_FILE_NAME) H3).
Qed.

(** X25: the factory calls [from_txt_line] with the line alone, and the
    ATC classification takes a dictionary id and a line: with three
    distinct file names, an ATC classification file with at least one
    line makes the installation raise; when there is no drug dictionary
    file to read before it, the exception is the [TypeError] of the
    missing argument. *)
Theorem atc_file_cannot_be_installed (directory_path line : string)
    (rest : list string) :
  DD_FILE_NAME <> DDA_FILE_NAME ->
  DD_FILE_NAME <> INA_FILE_NAME ->
  DDA_FILE_NAME <> INA_FILE_NAME ->
  files !! (directory_path +:+ "/" +:+ DDA_FILE_NAME) = Some (line :: rest) ->
  (exists e, install directory_path = Raise e)
  /\ (files !! (directory_path +:+ "/" +:+ DD_FILE_NAME) = None ->
      install directory_path
      = Raise (TypeError "from_txt_line() missing 1 required positional argument: 'line'")).
Proof.
  intros H1 H2 H3 Hdda. subst install. unfold install_terms.
  fold the_map. fold install_from. rewrite install_files_reads.
  rewrite (file_name_model_map_distinct H1 H2 H3).
  subst read_from. cbn [map fst read_files]. fold the_map.
  rewrite (file_name_model_map_distinct H1 H2 H3). rewrite Hdda.
  assert (Hdd : assoc_get DD_FILE_NAME
                  [(DD_FILE_NAME, DrugDictionary); (DDA_FILE_NAME, atc_model);
                   (INA_FILE_NAME, AtcText)] = Some DrugDictionary).
  { cbn. by rewrite String.eqb_refl. }
  assert (Hatc : assoc_get DDA_FILE_NAME
                   [(DD_FILE_NAME, DrugDictionary); (DDA_FILE_NAME, atc_model);
                    (INA_FILE_NAME, AtcText)] = Some atc_model).
  { cbn. rewrite (proj2 (String.eqb_neq DD_FILE_NAME DDA_FILE_NAME) H1).
    by rewrite String.eqb_refl. }
  rewrite Hdd, Hatc. cbn [read_lines].
  subst atc_model. cbn [AtcClassification_from_txt_line].
  split.
  - destruct (files !! (directory_path +:+ "/" +:+ DD_FILE_NAME)); [|eauto].
    destruct (read_lines Term DrugDictionary l); eauto.
  - by intros ->.
Qed.
End WhoDrugFactoryProperties.

Lemma install_terms_groups_by_type_witness :
  exists m,
    install_terms sample_term fst "DD.txt" "DDA.txt" "INA.txt"
      "ATC_CLASSIFICATION" sample_dd sample_dd sample_atc_term dd_only_files
      KeyError "/whodrug" = Ok m
    /\ m !! "DD" = Some [("DD", "000001 ASPIRIN"); ("DD", "000002 IBUPROFEN")]
    /\ m !! "ATC_CLASSIFICATION" = None.
Proof.
  destruct (proj2 (install_terms_groups_by_type sample_term fst "DD.txt"
                     "DDA.txt" "INA.txt" "ATC_CLASSIFICATION" sample_dd
                     sample_dd sample_atc_term dd_only_files KeyError
                     "/whodrug")
              [("DD", "000001 ASPIRIN"); ("DD", "000002 IBUPROFEN")])
    as [m [Hm Hty]]; [vm_compute; reflexivity|].
  exists m. split; [exact Hm|]. split.
  - rewrite Hty. reflexivity.
  - rewrite Hty. reflexivity.
Defined.

Lemma atc_file_cannot_be_installed_witness :
  install_terms sample_term fst "DD.txt" "DDA.txt" "INA.txt"
    "ATC_CLASSIFICATION" sample_dd sample_dd sample_atc_term dda_files
    KeyError "/whodrug"
  = Raise (TypeError "from_txt_line() missing 1 required positional argument: 'line'").
Proof.
  apply (proj2 (atc_file_cannot_be_installed sample_term fst "DD.txt"
                  "DDA.txt" "INA.txt" "ATC_CLASSIFICATION" sample_dd sample_dd
                  sample_atc_term dda_files KeyError "/whodrug"
                  "000001      N02BA  " []
                  ltac:(discriminate) ltac:(discriminate) ltac:(discriminate)
                  eq_refl)).
  reflexivity.
Defined.

(** ** Cache discipline of the executor *)

(** X14: a call of the executor leaves every cache entry but the one of
    its own key as it was, never touches the list objects, and writes
    nothing at all when it raises. *)
Theorem executor_writes_only_its_key (E : Env) (operation_to_call : Capability)
    (p : OperationParams) (w : World) :
  let run := _execute_operation E operation_to_call p w in
  (forall k, k <> cache_key_of E p w -> cache (fst run) !! k = cache w !! k)
  /\ (forall e, snd run = Raise e -> cache (fst run) = cache w)
  /\ heap (fst run) = heap w.
Proof.
  intros run. subst run.
  destruct (truthy_result (default (RScalar CNone)
                             (cache w !! cache_key_of E p w))) as [[|]|e0]
    eqn:Hhit.
  - assert (Hrun : _execute_operation E operation_to_call p w
                   = (w, Ok (default (RScalar CNone)
                               (cache w !! cache_key_of E p w), p))).
    { unfold _execute_operation.
      unfold bind at 1, list_read at 1. unfold bind at 1, cache_get at 1.
      fold (cache_key_of E p w). unfold bind at 1, lift at 1.
      by rewrite Hhit. }
    by rewrite Hrun.
  - rewrite (execute_cache_miss _ _ _ _ Hhit).
    unfold bind, lift, ret, raise, emit, list_read, cache_add. cbn.
    repeat match goal with
           | |- context [match ?x with _ => _ end] => destruct x eqn:?; cbn
           end.
    all: repeat match goal with
                | H : context [match ?x with _ => _ end] |- _ =>
                    destruct x eqn:?; simplify_eq/=
                end.
    all: split;
      [ intros other Hother; unfold cache_key_of in *;
        rewrite ?lookup_insert_ne by (intros Heq; by apply Hother); done
      | split; [intros raised Hraised; try discriminate Hraised; done
               | done] ].
  - assert (Hrun : _execute_operation E operation_to_call p w
                   = (w, Raise e0)).
    { unfold _execute_operation.
      unfold bind at 1, list_read at 1. unfold bind at 1, cache_get at 1.
      fold (cache_key_of E p w). unfold bind at 1, lift at 1.
      by rewrite Hhit. }
    by rewrite Hrun.
Qed.

Lemma executor_writes_only_its_key_witness :
  let stored := {| cache := {[ "other" := RScalar (CInt 1) ]};
                   heap := []; trace := [] |} in
  let run := _execute_operation sample_env record_count_capability
               lb_record_count_params stored in
  cache (fst run) !! "other" = Some (RScalar (CInt 1))
  /\ cache (fst run) = cache stored.
Proof.
  intros stored run.
  destruct (executor_writes_only_its_key sample_env record_count_capability
              lb_record_count_params stored) as [Hk [He _]].
  split.
  - rewrite Hk; [reflexivity | discriminate].
  - apply (He (TypeError "'NoneType' object is not subscriptable")).
    reflexivity.
Defined.

(** ** Data files of the command line *)

Lemma basename_of_name (name : string) :
  has_slash name = false -> basename name = name.
Proof.
  induction name as [|c name IH]; [done|]. cbn.
  destruct (Ascii.eqb c "/"); [done|]. cbn. by intros ->.
Qed.

Lemma has_slash_append (a b : string) :
  has_slash (a +:+ b) = has_slash a || has_slash b.
Proof.
  induction a as [|c a IH]; [done|]. rewrite append_String. cbn.
  by rewrite IH, orb_assoc.
Qed.

Lemma basename_join (directory name : string) :
  has_slash name = false ->
  basename (directory +:+ "/" +:+ name) = name.
Proof.
  intros Hn. induction directory as [|c directory IH].
  - rewrite append_empty. rewrite append_String, append_empty. cbn.
    by rewrite Hn.
  - rewrite append_String. cbn [basename].
    rewrite has_slash_append, append_String, append_empty. cbn.
    by rewrite orb_true_r.
Qed.

Lemma lower_char_twice (c : ascii) : lower_char (lower_char c) = lower_char c.
Proof. by destruct c as [[] [] [] [] [] [] [] []]. Qed.

Lemma lower_twice (s : string) : lower (lower s) = lower s.
Proof.
  induction s as [|c s IH]; [done|]. cbn. by rewrite lower_char_twice, IH.
Qed.

Lemma lower_char_keeps_slash (c : ascii) :
  Ascii.eqb (lower_char c) "/" = Ascii.eqb c "/".
Proof. by destruct c as [[] [] [] [] [] [] [] []]. Qed.

Lemma has_slash_lower (s : string) : has_slash (lower s) = has_slash s.
Proof.
  induction s as [|c s IH]; [done|]. cbn.
  by rewrite lower_char_keeps_slash, IH.
Qed.

(** X26: whether a path is a data file depends on its base name and on
    the format only, and on neither in their case: the directory in front
    of a name does not matter, and the name and the format may be given
    in upper or lower case. *)
Theorem data_file_by_base_name_ignoring_case (DEFINE_XML_FILE_NAME : string)
    (directory name data_format : string) :
  has_slash name = false ->
  valid_data_file DEFINE_XML_FILE_NAME (directory +:+ "/" +:+ name) data_format
  = valid_data_file DEFINE_XML_FILE_NAME (lower name) (lower data_format).
Proof.
  intros Hn. unfold valid_data_file.
  rewrite (basename_join directory name Hn).
  rewrite (basename_of_name (lower name))
    by (by rewrite has_slash_lower).
  by rewrite !lower_twice.
Qed.

Lemma data_file_by_base_name_ignoring_case_witness :
  valid_data_file "define.xml" "/data/study/AE.XPT" "XPT" = true
  /\ valid_data_file "define.xml" "/data/study/AE.XPT" "XPT"
     = valid_data_file "define.xml" "ae.xpt" "xpt".
Proof.
  split; [reflexivity|].
  apply (data_file_by_base_name_ignoring_case "define.xml" "/data/study"
           "AE.XPT" "XPT").
  reflexivity.
Defined.
